(** * Batch migrations over a transactional document store

    A shallow embedding of the migration engine of
    [packages/convex-helpers/values.ts] (the part that starts at
    [DEFAULT_BATCH_SIZE]): the batch-step mutation built by [makeMigration],
    and the helpers [startMigration], [startMigrationsSerially], [getStatus]
    and [cancelMigration].

    The host (migrations table, user documents, scheduled jobs) is an
    explicit world that a small state-and-exception monad threads through
    the code; the readings of the clock are arguments of the handler.  A
    mutation is a transaction: when it throws, the world it started from is
    restored ([transaction]). *)

From stdpp Require Import base option list gmap strings numbers.

Local Open Scope Z_scope.

(** ** Values shared by all tables *)

(** [export const DEFAULT_BATCH_SIZE = 100;] *)
Definition DEFAULT_BATCH_SIZE : Z := 100.

(** Ids are opaque non-empty strings handed out by the host, so an id is
    always truthy in JavaScript.  A table only grows in this model (the
    engine never deletes), so the id of a row is its position. *)
Definition MigId := nat.
Definition JobId := nat.
Definition DocId := nat.

(** [string | null] *)
Definition Cursor := option string.

(** An optional property of a JavaScript object: missing, present with the
    value [undefined], or present with a value.  Reading the first two gives
    [undefined]; [db.patch] keeps the stored field for the first and removes
    it for the second. *)
Inductive Optional (A : Type) : Type :=
  | Absent
  | Undefined
  | Present (a : A).
Arguments Absent {A}.
Arguments Undefined {A}.
Arguments Present {A} a.

Definition value_of {A} (o : Optional A) : option A :=
  match o with
  | Present a => Some a
  | _ => None
  end.

(** What the store keeps of an optional field: [undefined] is not stored. *)
Definition stored_field {A} (o : Optional A) : Optional A :=
  match o with
  | Present a => Present a
  | _ => Absent
  end.

(** The field of a stored document after [db.patch] with an object whose
    property is [new]. *)
Definition patch_field {A} (old new : Optional A) : Optional A :=
  match new with
  | Absent => stored_field old
  | Undefined => Absent
  | Present a => Present a
  end.

(** JavaScript truthiness of a string that may be [undefined]. *)
Definition truthy (s : option string) : bool :=
  match s with
  | Some s => negb (String.eqb s "")
  | None => false
  end.

(** [a ?? b] *)
Definition nullish {A} (a : option A) (b : A) : A :=
  match a with
  | Some x => x
  | None => b
  end.

(** ** [migrationsFields] and [migrationArgs] *)

(** [type MigrationMetadata = ObjectType<typeof migrationsFields>].
    [processed], [latestStart] and [latestEnd] are JavaScript numbers that
    only ever hold counts and millisecond timestamps; they are integers
    here. *)
Record MigrationMetadata : Type := {
  name : string;
  table : string;
  cursor : Cursor;
  isDone : bool;
  workerId : Optional JobId;
  processed : Z;
  latestStart : Z;
  latestEnd : Optional Z;
}.

(** A record that is done has an end time and no worker. *)
Definition done_inv (r : MigrationMetadata) : Prop :=
  isDone r = true -> is_Some (value_of (latestEnd r)) /\ value_of (workerId r) = None.

(** An end time is recorded exactly for the records that are done. *)
Definition end_iff_done (r : MigrationMetadata) : Prop :=
  is_Some (value_of (latestEnd r)) <-> isDone r = true.

(** Two records that read the same: equal fields, an optional field that is
    missing in one being [undefined] at worst in the other. *)
Definition same_values (r r' : MigrationMetadata) : Prop :=
  name r' = name r /\ table r' = table r /\ cursor r' = cursor r /\
  isDone r' = isDone r /\ processed r' = processed r /\
  latestStart r' = latestStart r /\
  value_of (workerId r') = value_of (workerId r) /\
  value_of (latestEnd r') = value_of (latestEnd r).

(** The local [state] of the handler:
    [MigrationMetadata & { _id?: GenericId<MigrationTable> }]. *)
Record MigrationState : Type := {
  _id : option MigId;
  doc : MigrationMetadata;
}.

(** A state that a batch has ended, or that is not done, can be merged into
    any stored record. *)
Definition settled (st : MigrationState) : Prop :=
  isDone (doc st) = true ->
  workerId (doc st) = Undefined /\ is_Some (value_of (latestEnd (doc st))).

(** [type MigrationArgs = ObjectType<typeof migrationArgs>].  For [cursor],
    [None] is [undefined] (not supplied), [Some None] is [null]. *)
Module Args.
Record t : Type := {
  fnName : string;
  cursor : option Cursor;
  batchSize : option Z;
  next : option (list string);
  dryRun : option bool;
}.
End Args.
Abbreviation MigrationArgs := Args.t.

(** [if (args.dryRun)] *)
Definition dry (args : MigrationArgs) : bool :=
  match Args.dryRun args with
  | Some true => true
  | _ => false
  end.

(** A function reference is known by its name:
    [getFunctionName (makeFunctionReference n) = n]. *)
Record FunctionReference : Type := makeFunctionReference {
  getFunctionName : string;
}.

Definition migrationRef : string -> FunctionReference := makeFunctionReference.

(** ** The scheduler's table [_scheduled_functions] *)

Inductive JobKind : Type :=
  | pending
  | inProgress
  | success
  | failed
  | canceled.

(** One scheduled job: the function, the delay given to [runAfter], the
    argument array and the live state. *)
Record Job : Type := {
  job_fn : FunctionReference;
  job_delay : Z;
  job_args : list MigrationArgs;
  job_kind : JobKind;
}.

(** [worker.state.kind === "pending" || worker.state.kind === "inProgress"] *)
Definition active (k : JobKind) : bool :=
  match k with
  | pending | inProgress => true
  | _ => false
  end.

(** ** Stored migration records *)

(** The record the store keeps after [db.insert(migrationTableName, state)]. *)
Definition inserted (r : MigrationMetadata) : MigrationMetadata :=
  {| name := name r; table := table r; cursor := cursor r; isDone := isDone r;
     workerId := stored_field (workerId r); processed := processed r;
     latestStart := latestStart r; latestEnd := stored_field (latestEnd r) |}.

(** The record the store keeps after [db.patch(state._id, state)]: a shallow
    merge of [state] into the stored record. *)
Definition patched (old new : MigrationMetadata) : MigrationMetadata :=
  {| name := name new; table := table new; cursor := cursor new;
     isDone := isDone new;
     workerId := patch_field (workerId old) (workerId new);
     processed := processed new; latestStart := latestStart new;
     latestEnd := patch_field (latestEnd old) (latestEnd new) |}.

(** How one invocation for the migration [fn] over the table [tbl] may
    change the migrations table: not at all, by rewriting the record named
    [fn] without touching its name and table, or by adding a record named
    [fn] when there was none. *)
Definition table_step (fn tbl : string) (ms ms' : list MigrationMetadata) : Prop :=
  ms' = ms \/
  (exists i old new,
      ms !! i = Some old /\ name old = fn /\ name new = fn /\
      table new = table old /\ ms' = <[i := new]> ms) \/
  ((forall i r, ms !! i = Some r -> name r <> fn) /\
   exists new, name new = fn /\ table new = tbl /\ ms' = ms ++ [new]).

(** Two states of the same record: same id, name and table. *)
Definition same_key (st st' : MigrationState) : Prop :=
  _id st' = _id st /\ name (doc st') = name (doc st) /\
  table (doc st') = table (doc st).

(** The rows of the index [name] equal to [n], with their ids, from
    position [i] on. *)
Fixpoint withIndex_name (i : MigId) (tbl : list MigrationMetadata) (n : string)
  : list (MigId * MigrationMetadata) :=
  match tbl with
  | [] => []
  | r :: tbl' =>
      if String.eqb (name r) n
      then (i, r) :: withIndex_name (S i) tbl' n
      else withIndex_name (S i) tbl' n
  end.

(** The readings of [Date.now()] at its three call sites in the handler: when
    the fresh state is built, when a batch ends the migration, and when the
    migration is restarted from an explicit cursor. *)
Record Clock : Type := {
  now_created : Z;
  now_ended : Z;
  now_restarted : Z;
}.

Section Engine.

(** ** The host: documents, patches and pagination

    The documents of the user's tables, what [db.patch] does to one of them
    and how [paginate] cuts a table into pages belong to the host; they are
    parameters.  The migrated table is a user table, distinct from the
    migrations table. *)
Context {Doc Patch : Type}.
Variable doc_id : Doc -> DocId.
Variable apply_patch : Doc -> Patch -> Doc.

Record PaginationResult : Type := {
  page : list Doc;
  pageIsDone : bool;
  continueCursor : string;
}.

(** The data of a [ConvexError]: [{ before, after, ...state }] after a
    dry-run batch, [{ args, ...state }] at the end of the handler. *)
Inductive Payload : Type :=
  | BatchPayload (before after : option Doc) (state : MigrationState)
  | ArgsPayload (args : MigrationArgs) (state : MigrationState).

Inductive Error : Type :=
  | ConvexError (payload : Payload)
  | MigrationNotFound (migration : string)
  | OtherError (msg : string).

Inductive Outcome (A : Type) : Type :=
  | Return (a : A)
  | Throw (e : Error).
Arguments Return {A} a.
Arguments Throw {A} e.

Variable paginate : string -> gmap DocId Doc -> Cursor -> Z -> Outcome PaginationResult.

Record World : Type := {
  migrations : list MigrationMetadata;
  documents : gmap DocId Doc;
  jobs : list Job;
}.

(** The record [r] with id [i] is the only one named [n]. *)
Definition stored_as (w : World) (n : string) (i : MigId) (r : MigrationMetadata) : Prop :=
  migrations w !! i = Some r /\ name r = n /\
  forall i' r', migrations w !! i' = Some r' -> name r' = n -> i' = i.

(** No record is named [n]. *)
Definition absent_from (w : World) (n : string) : Prop :=
  forall i r, migrations w !! i = Some r -> name r <> n.

(** No two records of the migrations table share a name. *)
Definition unique_names (w : World) : Prop := NoDup (name <$> migrations w).

(** The world with one more scheduled job. *)
Definition add_job (w : World) (j : Job) : World :=
  {| migrations := migrations w; documents := documents w; jobs := jobs w ++ [j] |}.

(** ** The monad of host calls *)

Definition M (A : Type) : Type := World -> Outcome A * World.

Definition ret {A} (a : A) : M A := fun w => (Return a, w).

Definition throw {A} (e : Error) : M A := fun w => (Throw e, w).

Definition bind {A B} (m : M A) (k : A -> M B) : M B :=
  fun w =>
    match m w with
    | (Return a, w') => k a w'
    | (Throw e, w') => (Throw e, w')
    end.

Notation "x <- m ;; k" := (bind m (fun x => k))
  (at level 100, m at next level, right associativity).

(** A mutation commits the world it ends in when it returns, and rolls back
    to the world it started from when it throws. *)
Definition transaction {A} (m : M A) : M A :=
  fun w =>
    match m w with
    | (Return a, w') => (Return a, w')
    | (Throw e, _) => (Throw e, w)
    end.

(** *** Migrations table *)

(** [db.query(t).withIndex("name", q => q.eq("name", n)).unique()] *)
Definition unique (n : string) : M (option (MigId * MigrationMetadata)) :=
  fun w =>
    match withIndex_name 0%nat (migrations w) n with
    | [] => (Return None, w)
    | [row] => (Return (Some row), w)
    | _ => (Throw (OtherError "unique() query returned more than one result"), w)
    end.

(** [db.insert(migrationTableName, state)] *)
Definition insert_migration (r : MigrationMetadata) : M MigId :=
  fun w =>
    (Return (length (migrations w)),
     {| migrations := migrations w ++ [inserted r];
        documents := documents w; jobs := jobs w |}).

(** [db.patch(state._id, state)] *)
Definition patch_migration (i : MigId) (r : MigrationMetadata) : M unit :=
  fun w =>
    match migrations w !! i with
    | Some old =>
        (Return tt,
         {| migrations := <[i := patched old r]> (migrations w);
            documents := documents w; jobs := jobs w |})
    | None => (Throw (OtherError "patch: document not found"), w)
    end.

(** [db.query(migrationTable).order("desc").take(10)] *)
Definition recent : M (list MigrationMetadata) :=
  fun w => (Return (take 10 (reverse (migrations w))), w).

(** *** User tables *)

(** [ctx.db.query(table).paginate({ cursor, numItems })] *)
Definition db_paginate (t : string) (c : Cursor) (numItems : Z) : M PaginationResult :=
  fun w =>
    match paginate t (documents w) c numItems with
    | Return r => (Return r, w)
    | Throw e => (Throw e, w)
    end.

(** [ctx.db.get(id)] *)
Definition db_get (i : DocId) : M (option Doc) :=
  fun w => (Return (documents w !! i), w).

(** [ctx.db.patch(id, value)] *)
Definition db_patch (i : DocId) (p : Patch) : M unit :=
  fun w =>
    match documents w !! i with
    | Some d =>
        (Return tt,
         {| migrations := migrations w;
            documents := <[i := apply_patch d p]> (documents w);
            jobs := jobs w |})
    | None => (Throw (OtherError "patch: document not found"), w)
    end.

(** *** Scheduler *)

(** [ctx.db.system.get(id)] *)
Definition system_get (i : JobId) : M (option Job) :=
  fun w => (Return (jobs w !! i), w).

(** [ctx.scheduler.runAfter(delay, fnRef, args)] *)
Definition runAfter (delay : Z) (fn : FunctionReference) (args : MigrationArgs) : M JobId :=
  fun w =>
    (Return (length (jobs w)),
     {| migrations := migrations w; documents := documents w;
        jobs := jobs w ++ [ {| job_fn := fn; job_delay := delay;
                               job_args := [args]; job_kind := pending |} ] |}).

Definition cancel_job (j : Job) : Job :=
  {| job_fn := job_fn j; job_delay := job_delay j; job_args := job_args j;
     job_kind := if active (job_kind j) then canceled else job_kind j |}.

(** [ctx.scheduler.cancel(id)] *)
Definition cancel (i : JobId) : M unit :=
  fun w =>
    (Return tt,
     {| migrations := migrations w; documents := documents w;
        jobs := alter cancel_job i (jobs w) |}).

(** [state.workerId && (await ctx.db.system.get(state.workerId))] *)
Definition worker_of (wid : Optional JobId) : M (option Job) :=
  match wid with
  | Present i => system_get i
  | _ => ret None
  end.

(** [worker && (worker.state.kind === "pending" || ... "inProgress")] *)
Definition is_active (worker : option Job) : bool :=
  match worker with
  | Some j => active (job_kind j)
  | None => false
  end.

(** ** Entry points that only schedule *)

(** The [opts] of [startMigration]. *)
Record StartOpts : Type := {
  startCursor : option Cursor;
  opt_batchSize : option Z;
  opt_dryRun : option bool;
}.

Definition startMigration (fnRef : FunctionReference) (opts : option StartOpts) : M unit :=
  _ <- runAfter 0 fnRef
         {| Args.fnName := getFunctionName fnRef;
            Args.batchSize := o ← opts; opt_batchSize o;
            Args.cursor := o ← opts; startCursor o;
            Args.next := None;
            Args.dryRun := Some (nullish (o ← opts; opt_dryRun o) false) |};;
  ret tt.

Definition startMigrationsSerially (fnRefs : list FunctionReference) : M unit :=
  match fnRefs with
  | [] => ret tt
  | fnRef :: rest =>
      _ <- runAfter 0 fnRef
             {| Args.fnName := getFunctionName fnRef;
                Args.cursor := None;
                Args.batchSize := None;
                Args.next := Some (map getFunctionName rest);
                Args.dryRun := None |};;
      ret tt
  end.

(** ** Status and cancellation *)

(** What [getStatus] works on: a stored record, or the placeholder
    [{ name, status: "not found", workerId: undefined, isDone: false }]. *)
Inductive StatusDoc : Type :=
  | Stored (r : MigrationMetadata)
  | NotFoundDoc (migration : string).

Definition status_isDone (d : StatusDoc) : bool :=
  match d with
  | Stored r => isDone r
  | NotFoundDoc _ => false
  end.

Definition status_workerId (d : StatusDoc) : Optional JobId :=
  match d with
  | Stored r => workerId r
  | NotFoundDoc _ => Undefined
  end.

(** One element of the result of [getStatus]: the document as it is, or the
    document spread into an object with [workerStatus], [batchSize] and
    [next]. *)
Inductive MigrationStatus : Type :=
  | Plain (d : StatusDoc)
  | Enriched (d : StatusDoc) (workerStatus : option JobKind)
             (batchSize : option Z) (next : option (list string)).

(** [asyncMap(migrations, async (m) => (await ...unique()) ?? {...})] *)
Fixpoint lookup_all (ms : list FunctionReference) : M (list StatusDoc) :=
  match ms with
  | [] => ret []
  | m :: ms' =>
      found <- unique (getFunctionName m);;
      rest <- lookup_all ms';;
      ret (match found with
           | Some (_, r) => Stored r
           | None => NotFoundDoc (getFunctionName m)
           end :: rest)
  end.

Definition status_of (migration : StatusDoc) : M MigrationStatus :=
  if status_isDone migration then ret (Plain migration)
  else
    worker <- worker_of (status_workerId migration);;
    ret (Enriched migration
           (job_kind <$> worker)
           (j ← worker; a ← head (job_args j); Args.batchSize a)
           (j ← worker; a ← head (job_args j); Args.next a)).

(** [Promise.all(docs.map(async (migration) => ...))] *)
Fixpoint status_all (docs : list StatusDoc) : M (list MigrationStatus) :=
  match docs with
  | [] => ret []
  | d :: docs' =>
      s <- status_of d;;
      rest <- status_all docs';;
      ret (s :: rest)
  end.

Definition getStatus (migrations : option (list FunctionReference)) : M (list MigrationStatus) :=
  docs <- match migrations with
          | Some ms => lookup_all ms
          | None => rs <- recent;; ret (Stored <$> rs)
          end;;
  status_all docs.

(** The job a [workerId] names in [w], if any. *)
Definition job_of (w : World) (wid : Optional JobId) : option Job :=
  i ← value_of wid; jobs w !! i.

(** A document spread into an object with the state, batch size and [next]
    of its job. *)
Definition enriched (w : World) (d : StatusDoc) : MigrationStatus :=
  let worker := job_of w (status_workerId d) in
  Enriched d (job_kind <$> worker)
    (j ← worker; a ← head (job_args j); Args.batchSize a)
    (j ← worker; a ← head (job_args j); Args.next a).

(** The status of a document: as it is when done, enriched otherwise. *)
Definition expected_status (w : World) (d : StatusDoc) : MigrationStatus :=
  if status_isDone d then Plain d else enriched w d.

(** What [getStatus] works on for the requested migration [m]. *)
Definition resolved (w : World) (m : FunctionReference) (d : StatusDoc) : Prop :=
  (exists i r, stored_as w (getFunctionName m) i r /\ d = Stored r) \/
  (absent_from w (getFunctionName m) /\ d = NotFoundDoc (getFunctionName m)).

(** The reading of [getStatus] in which every requested migration comes
    back enriched, whether it is done or not. *)
Definition status_always_enriched (w : World) (ms : list FunctionReference) : Prop :=
  forall docs,
    Forall2 (resolved w) ms docs ->
    getStatus (Some ms) w = (Return (enriched w <$> docs), w).

(** [workerStatus] as [cancelMigration] reports it. *)
Inductive WorkerStatus : Type :=
  | StatusKind (k : JobKind)
  | StatusNotFound.

Inductive CancelResult : Type :=
  | Unchanged (state : MigrationMetadata)
  | WithWorkerStatus (state : MigrationMetadata) (workerStatus : WorkerStatus).

Definition cancelMigration (migration : FunctionReference) : M CancelResult :=
  let name := getFunctionName migration in
  found <- unique name;;
  match found with
  | None => throw (MigrationNotFound name)
  | Some (_, state) =>
      if negb (isDone state) then ret (Unchanged state)
      else
        worker <- worker_of (workerId state);;
        match worker, workerId state with
        | Some j, Present worker_id =>
            if active (job_kind j) then
              _ <- cancel worker_id;;
              ret (WithWorkerStatus state (StatusKind canceled))
            else ret (WithWorkerStatus state (StatusKind (job_kind j)))
        | _, _ => ret (WithWorkerStatus state StatusNotFound)
        end
  end.

(** ** The batch-step mutation: [makeMigration(internalMutation, opts)(...)] *)

Section Migration.

(** [opts?.migrationTable] and [opts?.defaultBatchSize] of [makeMigration];
    [table], [migrateOne] and [batchSize] of the migration.  [migrateOne] gets
    the whole [ctx], so it is a computation of the same monad. *)
Variable migrationTableName : option string.
Variable opts_defaultBatchSize : option Z.
Variable targetTable : string.
Variable migrateOne : Doc -> M (option Patch).
Variable functionDefaultBatchSize : option Z.

(** [functionDefaultBatchSize ?? opts?.defaultBatchSize ?? DEFAULT_BATCH_SIZE] *)
Definition defaultBatchSize : Z :=
  nullish
    (match functionDefaultBatchSize with
     | Some b => Some b
     | None => opts_defaultBatchSize
     end)
    DEFAULT_BATCH_SIZE.

(** Step 1: get or create the state. *)
Definition initial_state (now : Clock) (args : MigrationArgs) : MigrationState :=
  {| _id := None;
     doc := {| name := Args.fnName args;
               table := targetTable;
               cursor := nullish (Args.cursor args) None;
               isDone := false;
               workerId := Absent;
               processed := 0;
               latestStart := now_created now;
               latestEnd := Absent |} |}.

Definition load_state (now : Clock) (args : MigrationArgs) : M MigrationState :=
  let state := initial_state now args in
  if truthy migrationTableName then
    existing <- unique (Args.fnName args);;
    match existing with
    | Some (i, r) => ret {| _id := Some i; doc := r |}
    | None =>
        i <- insert_migration (doc state);;
        ret {| _id := Some i; doc := doc state |}
    end
  else ret state.

(** [state.cursor === args.cursor] *)
Definition same_cursor (state : MigrationState) (args : MigrationArgs) : bool :=
  match Args.cursor args with
  | Some c => bool_decide (cursor (doc state) = c)
  | None => false
  end.

(** [!state._id || state.cursor === args.cursor || args.dryRun] *)
Definition should_migrate (state : MigrationState) (args : MigrationArgs) : bool :=
  match _id state with
  | None => true
  | Some _ => same_cursor state args || dry args
  end.

(** [args.dryRun && args.cursor !== undefined ? args.cursor : state.cursor] *)
Definition batch_cursor (state : MigrationState) (args : MigrationArgs) : Cursor :=
  if dry args then
    match Args.cursor args with
    | Some c => c
    | None => cursor (doc state)
    end
  else cursor (doc state).

(** [for (const doc of page) { ... }] *)
Fixpoint migrate_page (docs : list Doc) : M unit :=
  match docs with
  | [] => ret tt
  | d :: rest =>
      next <- migrateOne d;;
      _ <- match next with
           | Some p => db_patch (doc_id d) p
           | None => ret tt
           end;;
      migrate_page rest
  end.

(** The loop read as a relation between the world before and the world
    after: each document is given to [migrateOne] in turn; a result that is
    a patch replaces the stored document by its patched version, no result
    leaves the world as [migrateOne] left it. *)
Inductive page_steps : list Doc -> World -> World -> Prop :=
  | steps_done w : page_steps [] w w
  | steps_skip d rest w w1 w2 :
      migrateOne d w = (Return None, w1) ->
      page_steps rest w1 w2 ->
      page_steps (d :: rest) w w2
  | steps_patch d rest w w1 w2 p old :
      migrateOne d w = (Return (Some p), w1) ->
      documents w1 !! doc_id d = Some old ->
      page_steps rest
        {| migrations := migrations w1;
           documents := <[doc_id d := apply_patch old p]> (documents w1);
           jobs := jobs w1 |} w2 ->
      page_steps (d :: rest) w w2.

(** The assignments to [state] after the loop. *)
Definition advance (now : Clock) (r : PaginationResult) (state : MigrationState)
  : MigrationState :=
  let st := doc state in
  {| _id := _id state;
     doc := {| name := name st;
               table := table st;
               cursor := Some (continueCursor r);
               isDone := pageIsDone r;
               workerId := if pageIsDone r then Undefined else workerId st;
               processed := processed st + Z.of_nat (length (page r));
               latestStart := latestStart st;
               latestEnd := if pageIsDone r then Present (now_ended now)
                            else latestEnd st |} |}.

(** Step 2, first branch: do the migration of one page. *)
Definition migrate_batch (now : Clock) (args : MigrationArgs) (state : MigrationState)
  : M MigrationState :=
  let numItems := nullish (Args.batchSize args) defaultBatchSize in
  r <- db_paginate targetTable (batch_cursor state args) numItems;;
  _ <- migrate_page (page r);;
  let state' := advance now r state in
  if dry args then
    after <- match head (page r) with
             | Some d => db_get (doc_id d)
             | None => ret None
             end;;
    throw (ConvexError (BatchPayload (head (page r)) after state'))
  else ret state'.

(** Step 2, second branch, case 2: update the cursor for the recursive call. *)
Definition restart (now : Clock) (args : MigrationArgs) (state : MigrationState)
  : MigrationState :=
  match Args.cursor args with
  | Some c =>
      let st := doc state in
      {| _id := _id state;
         doc := {| name := name st;
                   table := table st;
                   cursor := c;
                   isDone := false;
                   workerId := workerId st;
                   processed := 0;
                   latestStart := now_restarted now;
                   latestEnd := latestEnd st |} |}
  | None => state
  end.

(** [!doc || !doc.isDone] *)
Definition not_done (found : option (MigId * MigrationMetadata)) : bool :=
  match found with
  | Some (_, r) => negb (isDone r)
  | None => true
  end.

(** Step 3, second branch: the loop over [next].  The list is the slice
    [next.slice(i)]; one turn of the source's loop is one unfolding. *)
Fixpoint schedule_series (next : list string) : M unit :=
  match next with
  | [] => ret tt
  | nextFn :: rest =>
      found <- (if truthy migrationTableName then unique nextFn else ret None);;
      if not_done found then
        if truthy (Some nextFn) then
          _ <- runAfter 0 (migrationRef nextFn)
                 {| Args.fnName := nextFn; Args.cursor := None;
                    Args.batchSize := None; Args.next := Some rest;
                    Args.dryRun := None |};;
          ret tt
        else ret tt
      else schedule_series rest
  end.

(** How the loop over [next] sees the migration named [n]: skipped when a
    state store is configured and its record is done; eligible when nothing
    is persisted for it or its record is not done. *)
Definition skipped (w : World) (n : string) : Prop :=
  truthy migrationTableName = true /\
  exists i r, stored_as w n i r /\ isDone r = true.

Definition eligible (w : World) (n : string) : Prop :=
  truthy migrationTableName = false \/
  absent_from w n \/
  exists i r, stored_as w n i r /\ isDone r = false.

(** The job that starts the migration [n] of a series, followed by [rest]. *)
Definition series_job (n : string) (rest : list string) : Job :=
  {| job_fn := migrationRef n;
     job_delay := 0;
     job_args := [ {| Args.fnName := n; Args.cursor := None;
                      Args.batchSize := None; Args.next := Some rest;
                      Args.dryRun := None |} ];
     job_kind := pending |}.

(** Step 3: schedule the next batch or the next migration. *)
Definition schedule (args : MigrationArgs) (state : MigrationState) : M MigrationState :=
  if negb (isDone (doc state)) then
    worker_id <- runAfter 0 (migrationRef (Args.fnName args))
                   {| Args.fnName := Args.fnName args;
                      Args.cursor := Some (cursor (doc state));
                      Args.batchSize := Args.batchSize args;
                      Args.next := Args.next args;
                      Args.dryRun := Args.dryRun args |};;
    let st := doc state in
    ret {| _id := _id state;
           doc := {| name := name st; table := table st; cursor := cursor st;
                     isDone := isDone st; workerId := Present worker_id;
                     processed := processed st; latestStart := latestStart st;
                     latestEnd := latestEnd st |} |}
  else
    _ <- schedule_series (nullish (Args.next args) []);;
    ret state.

(** The reading of the scan in which the first eligible migration of
    [next] is scheduled whatever its name. *)
Definition first_eligible_scheduled (args : MigrationArgs) (state : MigrationState)
    (w : World) : Prop :=
  forall skip n rest,
    nullish (Args.next args) [] = skip ++ n :: rest ->
    Forall (skipped w) skip ->
    eligible w n ->
    schedule args state w = (Return state, add_job w (series_job n rest)).

(** Step 4: update the state. *)
Definition persist (state : MigrationState) : M unit :=
  match _id state with
  | Some i => patch_migration i (doc state)
  | None => ret tt
  end.

(** Steps 3 and 4 and the end of the handler. *)
Definition finish (args : MigrationArgs) (state : MigrationState) : M MigrationState :=
  state' <- schedule args state;;
  _ <- persist state';;
  if dry args then throw (ConvexError (ArgsPayload args state'))
  else ret state'.

(** The handler of the mutation.  The [return state] of case 3 ends the
    handler, so the steps after it sit in both branches. *)
Definition handler (now : Clock) (args : MigrationArgs) : M MigrationState :=
  state <- load_state now args;;
  if should_migrate state args then
    state' <- migrate_batch now args state;;
    finish args state'
  else
    worker <- worker_of (workerId (doc state));;
    if is_active worker then ret state
    else finish args (restart now args state).

(** One invocation of the mutation by the host. *)
Definition run_migration (now : Clock) (args : MigrationArgs) : M MigrationState :=
  transaction (handler now args).

(** The reading of a restart in which an explicit cursor that differs from
    the stored one, with no active worker, always ends in a returned and
    committed state at that cursor, whether [dryRun] is set or not. *)
Definition restart_whatever_dryRun (now : Clock) (args : MigrationArgs) (w : World)
  : Prop :=
  forall i r c,
    stored_as w (Args.fnName args) i r ->
    Args.cursor args = Some c ->
    c <> cursor r ->
    is_active (job_of w (workerId r)) = false ->
    exists st' w' stored,
      run_migration now args w = (Return st', w') /\
      cursor (doc st') = c /\ isDone (doc st') = false /\
      latestStart (doc st') = now_restarted now /\ processed (doc st') = 0 /\
      migrations w' !! i = Some stored /\
      cursor stored = c /\ isDone stored = false /\
      latestStart stored = now_restarted now /\ processed stored = 0.

(** The reading of the invariant in which the mutation keeps
    [end_iff_done] on the migrations table. *)
Definition keeps_end_iff_done (now : Clock) (args : MigrationArgs) (w : World) : Prop :=
  Forall end_iff_done (migrations w) ->
  Forall end_iff_done (migrations (run_migration now args w).2).

End Migration.

End Engine.

Arguments PaginationResult Doc : clear implicits.
Arguments Payload Doc : clear implicits.
Arguments Error Doc : clear implicits.
Arguments Outcome Doc A : clear implicits.
Arguments World Doc : clear implicits.
Arguments M Doc A : clear implicits.
Arguments Return {Doc A} a.
Arguments Throw {Doc A} e.

(** ** A small host to run the engine on

    Documents are pairs of an id and a number, a patch is the new number, and
    the cursor of a page is a string as long as the number of documents
    before it. *)
Module Sample.

Definition Doc : Type := DocId * Z.
Definition Patch : Type := Z.

Definition doc_id (d : Doc) : DocId := d.1.
Definition apply_patch (d : Doc) (p : Patch) : Doc := (d.1, p).

Fixpoint mark (n : nat) : string :=
  match n with
  | O => ""
  | S n' => "x" +:+ mark n'
  end.

Definition offset (c : Cursor) : nat :=
  match c with
  | Some s => String.length s
  | None => 0%nat
  end.

Definition paginate (t : string) (docs : gmap DocId Doc) (c : Cursor) (numItems : Z)
  : Outcome Doc (PaginationResult Doc) :=
  if bool_decide (numItems <= 0) then Throw (OtherError "numItems must be positive")
  else
    let stop := (offset c + Z.to_nat numItems)%nat in
    Return {| page := omap (fun i => docs !! i) (seq (offset c) (Z.to_nat numItems));
              pageIsDone := bool_decide (size docs <= stop)%nat;
              continueCursor := mark stop |}.

(** Doubles odd numbers and leaves even ones alone. *)
Definition migrateOne (d : Doc) : M Doc (option Patch) :=
  if Z.odd d.2 then ret (Some (2 * d.2)) else ret None.

Definition clock : Clock :=
  {| now_created := 1000; now_ended := 2000; now_restarted := 3000 |}.

Definition users : gmap DocId Doc :=
  list_to_map [(0%nat, (0%nat, 1)); (1%nat, (1%nat, 2)); (2%nat, (2%nat, 3))].

Definition args_of (fn : string) : MigrationArgs :=
  {| Args.fnName := fn; Args.cursor := None; Args.batchSize := None;
     Args.next := None; Args.dryRun := None |}.

(** The mutation [migrations:double] over the table [users], with a
    migrations table and batches of two documents: its handler, and the
    handler run as a transaction. *)
Definition double_handler : Clock -> MigrationArgs -> M Doc MigrationState :=
  handler doc_id apply_patch paginate (Some "migrations") None "users"
    migrateOne (Some 2).

Definition double : Clock -> MigrationArgs -> M Doc MigrationState :=
  run_migration doc_id apply_patch paginate (Some "migrations") None "users"
    migrateOne (Some 2).

Definition fn : string := "migrations:double".

Definition args : MigrationArgs := args_of fn.

Definition dry_args : MigrationArgs :=
  {| Args.fnName := fn; Args.cursor := None; Args.batchSize := None;
     Args.next := None; Args.dryRun := Some true |}.

(** Restart from the beginning: [cursor: null]. *)
Definition restart_args : MigrationArgs :=
  {| Args.fnName := fn; Args.cursor := Some None; Args.batchSize := None;
     Args.next := None; Args.dryRun := None |}.

Definition dry_restart_args : MigrationArgs :=
  {| Args.fnName := fn; Args.cursor := Some None; Args.batchSize := None;
     Args.next := None; Args.dryRun := Some true |}.

(** The record of the migration after one batch, with or without a worker,
    and after its last batch. *)
Definition running : MigrationMetadata :=
  {| name := fn; table := "users"; cursor := Some "xx"; isDone := false;
     workerId := Present 0%nat; processed := 2; latestStart := 1000;
     latestEnd := Absent |}.

Definition idle : MigrationMetadata :=
  {| name := fn; table := "users"; cursor := Some "xx"; isDone := false;
     workerId := Absent; processed := 2; latestStart := 1000;
     latestEnd := Absent |}.

Definition finished : MigrationMetadata :=
  {| name := fn; table := "users"; cursor := Some "xxxx"; isDone := true;
     workerId := Absent; processed := 3; latestStart := 1000;
     latestEnd := Present 1500 |}.

(** The record as the first invocation creates it. *)
Definition created : MigrationMetadata :=
  {| name := fn; table := "users"; cursor := None; isDone := false;
     workerId := Absent; processed := 0; latestStart := 1000;
     latestEnd := Absent |}.

(** A record that is done and still names a worker. *)
Definition stale : MigrationMetadata :=
  {| name := fn; table := "users"; cursor := Some "xxxx"; isDone := true;
     workerId := Present 0%nat; processed := 3; latestStart := 1000;
     latestEnd := Present 1500 |}.

(** The pending job of the next batch. *)
Definition continuation : Job :=
  {| job_fn := migrationRef fn; job_delay := 0;
     job_args := [ {| Args.fnName := fn; Args.cursor := Some (Some "xx");
                      Args.batchSize := Some 2; Args.next := Some ["migrations:next"];
                      Args.dryRun := None |} ];
     job_kind := pending |}.

Definition world (ms : list MigrationMetadata) (js : list Job) : World Doc :=
  {| migrations := ms; documents := users; jobs := js |}.

(** A series: [migrations:first] is done, the others have not run. *)
Definition first : MigrationMetadata :=
  {| name := "migrations:first"; table := "users"; cursor := Some "xxxx";
     isDone := true; workerId := Absent; processed := 3; latestStart := 900;
     latestEnd := Present 950 |}.

Definition series_args : MigrationArgs :=
  {| Args.fnName := fn; Args.cursor := None; Args.batchSize := None;
     Args.next := Some ["migrations:first"; "migrations:second"; "migrations:third"];
     Args.dryRun := None |}.

Definition unnamed_args : MigrationArgs :=
  {| Args.fnName := fn; Args.cursor := None; Args.batchSize := None;
     Args.next := Some [""]; Args.dryRun := None |}.

(** Resume at the stored cursor of [idle]. *)
Definition resume_args : MigrationArgs :=
  {| Args.fnName := fn; Args.cursor := Some (Some "xx"); Args.batchSize := None;
     Args.next := None; Args.dryRun := None |}.

(** The last page of [users] and the documents after it is migrated. *)
Definition last_page : PaginationResult Doc :=
  {| page := [(2%nat, 3)]; pageIsDone := true; continueCursor := "xxxx" |}.

Definition users_done : gmap DocId Doc :=
  list_to_map [(0%nat, (0%nat, 1)); (1%nat, (1%nat, 2)); (2%nat, (2%nat, 6))].

(** The first page of [users] and the documents after it is migrated. *)
Definition first_page : PaginationResult Doc :=
  {| page := [(0%nat, 1); (1%nat, 2)]; pageIsDone := false; continueCursor := "xx" |}.

Definition users_started : gmap DocId Doc :=
  list_to_map [(0%nat, (0%nat, 2)); (1%nat, (1%nat, 2)); (2%nat, (2%nat, 3))].

(** The job that continues the migration from the cursor ["xx"]. *)
Definition next_batch : Job :=
  {| job_fn := migrationRef fn; job_delay := 0; job_args := [resume_args];
     job_kind := pending |}.

(** The first job of the migration, from the null cursor. *)
Definition first_batch : Job :=
  {| job_fn := migrationRef fn; job_delay := 0; job_args := [restart_args];
     job_kind := pending |}.

(** The same migration defined without a migrations table. *)
Definition stateless_handler : Clock -> MigrationArgs -> M Doc MigrationState :=
  handler doc_id apply_patch paginate None None "users" migrateOne (Some 2).

(** The steps 3 and 4 of [double_handler]. *)
Definition double_finish : MigrationArgs -> MigrationState -> M Doc MigrationState :=
  finish (Some "migrations").

(** The batch of [double_handler]. *)
Definition double_batch : Clock -> MigrationArgs -> MigrationState -> M Doc MigrationState :=
  migrate_batch doc_id apply_patch paginate None "users" migrateOne (Some 2).

End Sample.

(** * Properties *)

(** ** The index [name] of the migrations table *)

Lemma withIndex_name_none (tbl : list MigrationMetadata) (k : MigId) (n : string) :
  (forall i r, tbl !! i = Some r -> name r <> n) ->
  withIndex_name k tbl n = [].
Proof.
  revert k. induction tbl as [|r0 tbl IH]; intros k Hno; simpl; [done|].
  destruct (String.eqb_spec (name r0) n) as [Heq|_].
  - exfalso. exact (Hno 0%nat r0 eq_refl Heq).
  - apply IH. intros i r Hi. exact (Hno (S i) r Hi).
Qed.

Lemma withIndex_name_one (tbl : list MigrationMetadata) (k i : MigId) (n : string)
    (r : MigrationMetadata) :
  tbl !! i = Some r -> name r = n ->
  (forall i' r', tbl !! i' = Some r' -> name r' = n -> i' = i) ->
  withIndex_name k tbl n = [((k + i)%nat, r)].
Proof.
  revert k i. induction tbl as [|r0 tbl IH]; intros k i Hi Hn Huniq; [done|].
  simpl. destruct i as [|i]; simpl in Hi.
  - injection Hi as ->. rewrite Hn, String.eqb_refl, Nat.add_0_r. f_equal.
    apply withIndex_name_none. intros j r' Hj Hname.
    specialize (Huniq (S j) r' Hj Hname). discriminate.
  - destruct (String.eqb_spec (name r0) n) as [Heq|_].
    + specialize (Huniq 0%nat r0 eq_refl Heq). discriminate.
    + rewrite (IH (S k) i Hi Hn).
      * do 2 f_equal. lia.
      * intros j r' Hj Hname. specialize (Huniq (S j) r' Hj Hname). lia.
Qed.

Lemma withIndex_name_elem (tbl : list MigrationMetadata) (k j : MigId) (n : string)
    (r : MigrationMetadata) :
  (j, r) ∈ withIndex_name k tbl n ->
  exists i, j = (k + i)%nat /\ tbl !! i = Some r /\ name r = n.
Proof.
  revert k. induction tbl as [|r0 tbl IH]; intros k Hin; simpl in Hin.
  - by apply elem_of_nil in Hin.
  - destruct (String.eqb_spec (name r0) n) as [Heq|_].
    + apply elem_of_cons in Hin as [Hhd|Htl].
      * injection Hhd as -> ->. exists 0%nat. split; [lia|done].
      * destruct (IH _ Htl) as (i & -> & Hi & Hn). exists (S i). split; [lia|done].
    + destruct (IH _ Hin) as (i & -> & Hi & Hn). exists (S i). split; [lia|done].
Qed.

Section Lookup.
Context {Doc : Type}.
Implicit Types w : World Doc.

Lemma unique_stored w n i r :
  stored_as w n i r -> unique n w = (Return (Some (i, r)), w).
Proof.
  intros (Hi & Hn & Huniq). unfold unique.
  by rewrite (withIndex_name_one _ 0%nat i n r Hi Hn Huniq).
Qed.

Lemma unique_absent w n :
  absent_from w n -> unique n w = (Return None, w).
Proof.
  intros Hno. unfold unique. by rewrite (withIndex_name_none _ 0%nat n Hno).
Qed.

(** [unique] only reads, and what it finds is in the table. *)
Lemma unique_world w n out w' : unique n w = (out, w') -> w' = w.
Proof.
  unfold unique. destruct (withIndex_name _ _ _) as [|row [|row' rows]];
    by intros [= _ <-].
Qed.

Lemma unique_found w n i r w' :
  unique n w = (Return (Some (i, r)), w') -> migrations w !! i = Some r /\ name r = n.
Proof.
  unfold unique. destruct (withIndex_name _ _ _) as [|row [|row' rows]] eqn:E;
    intros [= Hrow Hw]; subst row w'.
  destruct (withIndex_name_elem (migrations w) 0%nat i n r) as (j & -> & Hj & Hn).
  - rewrite E. apply elem_of_cons. by left.
  - done.
Qed.

End Lookup.

Lemma withIndex_name_complete (tbl : list MigrationMetadata) (k i : MigId) (n : string)
    (r : MigrationMetadata) :
  tbl !! i = Some r -> name r = n -> ((k + i)%nat, r) ∈ withIndex_name k tbl n.
Proof.
  revert k i. induction tbl as [|r0 tbl IH]; intros k i Hi Hn; [done|].
  simpl. destruct i as [|i]; simpl in Hi.
  - injection Hi as ->. rewrite Hn, String.eqb_refl, Nat.add_0_r. by left.
  - replace (k + S i)%nat with (S k + i)%nat by lia.
    destruct (String.eqb (name r0) n); [right|]; by apply IH.
Qed.

(** A table can be checked for [stored_as] and [absent_from] by running the
    index. *)
Lemma stored_as_index {Doc} (w : World Doc) n i r :
  withIndex_name 0%nat (migrations w) n = [(i, r)] -> stored_as w n i r.
Proof.
  intros E.
  destruct (withIndex_name_elem (migrations w) 0%nat i n r) as (j & -> & Hj & Hn).
  { rewrite E. by left. }
  split; [done|]. split; [done|]. intros i' r' Hi' Hn'.
  pose proof (withIndex_name_complete _ 0%nat i' n r' Hi' Hn') as Hin.
  rewrite E in Hin. apply elem_of_cons in Hin as [Heq|Hnil].
  - by injection Heq.
  - by apply elem_of_nil in Hnil.
Qed.

Lemma absent_from_index {Doc} (w : World Doc) n :
  withIndex_name 0%nat (migrations w) n = [] -> absent_from w n.
Proof.
  intros E i r Hi Hn.
  pose proof (withIndex_name_complete _ 0%nat i n r Hi Hn) as Hin.
  rewrite E in Hin. by apply elem_of_nil in Hin.
Qed.

(** ** Cancellation *)

Section Cancel.
Context {Doc : Type}.
Implicit Types w : World Doc.

Lemma cancelMigration_not_found w migration :
  absent_from w (getFunctionName migration) ->
  cancelMigration migration w
  = (Throw (MigrationNotFound (getFunctionName migration)), w).
Proof.
  intros Hno. unfold cancelMigration, bind. by rewrite (unique_absent _ _ Hno).
Qed.

(** The scheduler is asked to cancel only for a record that is done. *)
Lemma cancelMigration_done_active w migration i state j job :
  stored_as w (getFunctionName migration) i state ->
  isDone state = true ->
  workerId state = Present j ->
  jobs w !! j = Some job ->
  active (job_kind job) = true ->
  cancelMigration migration w
  = (Return (WithWorkerStatus state (StatusKind canceled)),
     {| migrations := migrations w; documents := documents w;
        jobs := alter cancel_job j (jobs w) |}).
Proof.
  intros Hst Hdone Hwid Hjob Hact. unfold cancelMigration, bind.
  rewrite (unique_stored _ _ _ _ Hst), Hdone. simpl.
  rewrite Hwid. simpl. unfold system_get. rewrite Hjob, Hact. done.
Qed.

(** C1, as the code behaves: for a stored record whose [isDone] is false,
    [cancelMigration] returns the record as it is and leaves the world,
    scheduler included, as it was, whatever the state of the job that
    [workerId] names.  The claim asks for a cancellation there; the early
    return tests [!state.isDone] where the documentation ("Cancels a
    migration if it's in progress") needs [state.isDone]. *)
Theorem cancelMigration_in_progress_returns_early w migration i state :
  stored_as w (getFunctionName migration) i state ->
  isDone state = false ->
  cancelMigration migration w = (Return (Unchanged state), w).
Proof.
  intros Hst Hdone. unfold cancelMigration, bind.
  by rewrite (unique_stored _ _ _ _ Hst), Hdone.
Qed.

End Cancel.

(** ** Starting a series *)

Lemma startMigrationsSerially_cons {Doc} (w : World Doc)
    (fnRef : FunctionReference) (rest : list FunctionReference) :
  startMigrationsSerially (fnRef :: rest) w
  = (Return tt,
     add_job w
       {| job_fn := fnRef;
          job_delay := 0;
          job_args := [ {| Args.fnName := getFunctionName fnRef;
                           Args.cursor := None;
                           Args.batchSize := None;
                           Args.next := Some (getFunctionName <$> rest);
                           Args.dryRun := None |} ];
          job_kind := pending |}).
Proof. reflexivity. Qed.

(** C8: for a non-empty list of migration references,
    [startMigrationsSerially] adds one pending job to the scheduler and does
    nothing else: the job runs the first reference of the list after a delay
    of zero, with [fnName] its name and [next] the names of the rest of the
    list in order.  The migrations table and the documents are as before,
    and they play no part in what is scheduled: in two worlds with the same
    jobs the call leaves the same jobs. *)
Theorem startMigrationsSerially_schedules_first {Doc} (w : World Doc)
    (fnRefs : list FunctionReference) :
  fnRefs <> [] ->
  exists fnRef rest w',
    fnRefs = fnRef :: rest /\
    startMigrationsSerially fnRefs w = (Return tt, w') /\
    jobs w'
    = jobs w ++ [ {| job_fn := fnRef;
                     job_delay := 0;
                     job_args := [ {| Args.fnName := getFunctionName fnRef;
                                      Args.cursor := None;
                                      Args.batchSize := None;
                                      Args.next := Some (getFunctionName <$> rest);
                                      Args.dryRun := None |} ];
                     job_kind := pending |} ] /\
    migrations w' = migrations w /\
    documents w' = documents w /\
    forall v : World Doc,
      jobs v = jobs w -> jobs (startMigrationsSerially fnRefs v).2 = jobs w'.
Proof.
  intros Hne. destruct fnRefs as [|fnRef rest]; [done|].
  eexists fnRef, rest, _. split; [done|]. split.
  - apply startMigrationsSerially_cons.
  - repeat split; try done.
    intros v Hv. rewrite startMigrationsSerially_cons. simpl. by rewrite Hv.
Qed.

Lemma startMigrationsSerially_empty {Doc} (w : World Doc) :
  startMigrationsSerially [] w = (Return tt, w).
Proof. reflexivity. Qed.

(** ** Status *)

Section Status.
Context {Doc : Type}.
Implicit Types w : World Doc.

Lemma worker_of_job w wid : worker_of wid w = (Return (job_of w wid), w).
Proof. by destruct wid. Qed.

Lemma status_of_expected w d : status_of d w = (Return (expected_status w d), w).
Proof.
  unfold status_of, expected_status, enriched, bind.
  destruct (status_isDone d); [done|]. by rewrite worker_of_job.
Qed.

Lemma status_all_expected w docs :
  status_all docs w = (Return (expected_status w <$> docs), w).
Proof.
  induction docs as [|d docs IH]; [done|].
  simpl. unfold bind. by rewrite status_of_expected, IH.
Qed.

Lemma lookup_all_world w ms : (lookup_all ms w).2 = w.
Proof.
  induction ms as [|m ms IH]; [done|].
  simpl. unfold bind. destruct (unique _ w) as [[found|e] w1] eqn:E.
  - apply unique_world in E as ->.
    destruct (lookup_all ms w) as [[rest|e] w2]; simpl in *; done.
  - apply unique_world in E as ->. done.
Qed.

Lemma lookup_all_resolved w ms docs :
  Forall2 (resolved w) ms docs -> lookup_all ms w = (Return docs, w).
Proof.
  induction 1 as [|m d ms docs Hm _ IH]; [done|].
  simpl. unfold bind.
  destruct Hm as [(i & r & Hst & ->)|[Hno ->]].
  - by rewrite (unique_stored _ _ _ _ Hst), IH.
  - by rewrite (unique_absent _ _ Hno), IH.
Qed.

(** C9, amended: [getStatus] never changes the world.  With no list it
    returns the status of the ten most recent records, newest first; with a
    list it returns, in the order of the list, the status of the stored
    record of each name, or of a "not found" placeholder when no record has
    that name.  The status of a document whose [isDone] is false is the
    document enriched with [workerStatus], [batchSize] and [next] read from
    the job its [workerId] names; a document whose [isDone] is true is
    returned as it is, without looking at the scheduler. *)
Theorem getStatus_read_only_projection w :
  (forall ms, (getStatus ms w).2 = w) /\
  getStatus None w
  = (Return (expected_status w <$> (Stored <$> take 10 (reverse (migrations w)))), w) /\
  (forall ms docs,
      Forall2 (resolved w) ms docs ->
      getStatus (Some ms) w = (Return (expected_status w <$> docs), w)).
Proof.
  split; [|split].
  - intros [ms|]; unfold getStatus, bind.
    + pose proof (lookup_all_world w ms) as Hw.
      destruct (lookup_all ms w) as [[docs|e] w1]; simpl in Hw; subst w1; [|done].
      by rewrite status_all_expected.
    + unfold recent, ret. by rewrite status_all_expected.
  - unfold getStatus, bind, recent, ret. by rewrite status_all_expected.
  - intros ms docs Hres. unfold getStatus, bind.
    by rewrite (lookup_all_resolved _ _ _ Hres), status_all_expected.
Qed.

End Status.

(** ** The batch step *)

Section Handler.
Context {Doc Patch : Type}.
Variable doc_id : Doc -> DocId.
Variable apply_patch : Doc -> Patch -> Doc.
Variable paginate : string -> gmap DocId Doc -> Cursor -> Z -> Outcome Doc (PaginationResult Doc).
Variable migrationTableName : option string.
Variable opts_defaultBatchSize : option Z.
Variable targetTable : string.
Variable migrateOne : Doc -> M Doc (option Patch).
Variable functionDefaultBatchSize : option Z.
Implicit Types w : World Doc.
Implicit Types args : MigrationArgs.
Implicit Types st : MigrationState.

Local Abbreviation load := (load_state migrationTableName targetTable).
Local Abbreviation loop := (migrate_page doc_id apply_patch migrateOne).
Local Abbreviation numItems args :=
  (nullish (Args.batchSize args)
     (defaultBatchSize opts_defaultBatchSize functionDefaultBatchSize)).
Local Abbreviation batch :=
  (migrate_batch doc_id apply_patch paginate opts_defaultBatchSize targetTable
     migrateOne functionDefaultBatchSize).
Local Abbreviation series := (schedule_series migrationTableName).
Local Abbreviation sched := (schedule migrationTableName).
Local Abbreviation fin := (finish migrationTableName).
Local Abbreviation step :=
  (handler doc_id apply_patch paginate migrationTableName opts_defaultBatchSize
     targetTable migrateOne functionDefaultBatchSize).
Local Abbreviation run :=
  (run_migration doc_id apply_patch paginate migrationTableName
     opts_defaultBatchSize targetTable migrateOne functionDefaultBatchSize).

Lemma dry_true args : Args.dryRun args = Some true -> dry args = true.
Proof. unfold dry. by intros ->. Qed.

Lemma dry_false args : Args.dryRun args <> Some true -> dry args = false.
Proof. unfold dry. by destruct (Args.dryRun args) as [[|]|]. Qed.

Lemma should_migrate_dry st args : dry args = true -> should_migrate st args = true.
Proof.
  intros Hdry. unfold should_migrate. rewrite Hdry.
  destruct (_id st); [apply orb_true_r|done].
Qed.

Lemma same_cursor_false i r args :
  Args.cursor args <> Some (cursor r) -> same_cursor {| _id := i; doc := r |} args = false.
Proof.
  intros Hne. unfold same_cursor. destruct (Args.cursor args) as [c|]; [|done].
  apply bool_decide_eq_false. simpl. congruence.
Qed.

Lemma load_stored now args w i r :
  truthy migrationTableName = true ->
  stored_as w (Args.fnName args) i r ->
  load now args w = (Return {| _id := Some i; doc := r |}, w).
Proof.
  intros Htbl Hst. unfold load_state, bind.
  by rewrite Htbl, (unique_stored _ _ _ _ Hst).
Qed.

(** C3: when a state store is configured and holds a record for [fnName],
    the cursor given in the arguments is not the stored one (or none is
    given), [dryRun] is not set, and the stored [workerId] names a job that
    is pending or in progress, the handler returns the stored state as it
    read it and ends in the world it started from: no record, document or
    job is written. *)
Theorem race_with_active_worker_is_noop now args w i r j job :
  truthy migrationTableName = true ->
  stored_as w (Args.fnName args) i r ->
  Args.cursor args <> Some (cursor r) ->
  Args.dryRun args <> Some true ->
  workerId r = Present j ->
  jobs w !! j = Some job ->
  active (job_kind job) = true ->
  step now args w = (Return {| _id := Some i; doc := r |}, w).
Proof.
  intros Htbl Hst Hcur Hdry Hwid Hjob Hact. unfold handler, bind.
  rewrite (load_stored _ _ _ _ _ Htbl Hst).
  unfold should_migrate. simpl.
  rewrite (same_cursor_false _ _ _ Hcur), (dry_false _ Hdry). simpl.
  rewrite Hwid. simpl. unfold system_get. rewrite Hjob. simpl. by rewrite Hact.
Qed.

(** *** Dry runs *)

Lemma batch_dry_result now args st w r w' :
  dry args = true ->
  paginate targetTable (documents w) (batch_cursor st args) (numItems args) = Return r ->
  loop (page r) w = (Return tt, w') ->
  batch now args st w
  = (Throw (ConvexError
              (BatchPayload (head (page r))
                 (d ← head (page r); documents w' !! doc_id d)
                 (advance now r st))), w').
Proof.
  intros Hdry Hpag Hloop. unfold migrate_batch, bind, db_paginate.
  rewrite Hpag, Hloop, Hdry. by destruct (head (page r)).
Qed.

Lemma batch_dry_throws now args st w :
  dry args = true -> exists e w', batch now args st w = (Throw e, w').
Proof.
  intros Hdry. unfold migrate_batch, bind, db_paginate.
  destruct (paginate _ _ _ _) as [r|e]; [|by eauto].
  destruct (loop (page r) w) as [[[]|e] w1]; [|by eauto].
  rewrite Hdry. destruct (head (page r)); simpl; by eauto.
Qed.

Lemma handler_dry_throws now args w :
  dry args = true -> exists e w', step now args w = (Throw e, w').
Proof.
  intros Hdry. unfold handler, bind.
  destruct (load now args w) as [[st|e] w1]; [|by eauto].
  rewrite (should_migrate_dry _ _ Hdry).
  destruct (batch_dry_throws now args st w1 Hdry) as (e & w2 & ->). by eauto.
Qed.

(** C2: an invocation with [dryRun = true] always ends by throwing, so the
    transaction commits nothing: the world after the invocation, migrations
    table and documents included, is the world before it.  When the state is
    loaded, the page is read and the transforms and patches of the page go
    through, what is thrown is the [ConvexError] whose payload holds the
    first document of the page as it was read, that document as the store
    has it after the patches of the batch, and the state computed by the
    batch. *)
Theorem dry_run_commits_nothing now args w :
  Args.dryRun args = Some true ->
  (exists e, run now args w = (Throw e, w)) /\
  (forall st w1 r w2,
      load now args w = (Return st, w1) ->
      paginate targetTable (documents w1) (batch_cursor st args) (numItems args)
      = Return r ->
      loop (page r) w1 = (Return tt, w2) ->
      run now args w
      = (Throw (ConvexError
                  (BatchPayload (head (page r))
                     (d ← head (page r); documents w2 !! doc_id d)
                     (advance now r st))), w)).
Proof.
  intros Hdry%dry_true. split.
  - destruct (handler_dry_throws now args w Hdry) as (e & w' & He).
    exists e. unfold run_migration, transaction. by rewrite He.
  - intros st w1 r w2 Hload Hpag Hloop.
    unfold run_migration, transaction, handler, bind.
    rewrite Hload, (should_migrate_dry _ _ Hdry).
    by rewrite (batch_dry_result _ _ _ _ _ _ Hdry Hpag Hloop).
Qed.

(** *** What the steps leave alone *)

Lemma load_jobs now args w : jobs (load now args w).2 = jobs w.
Proof.
  unfold load_state, bind. destruct (truthy migrationTableName); [|done].
  destruct (unique _ w) as [[[[i r]|]|e] w1] eqn:E;
    apply unique_world in E as ->; done.
Qed.

Lemma loop_jobs docs w :
  (forall d w0, jobs (migrateOne d w0).2 = jobs w0) ->
  jobs (loop docs w).2 = jobs w.
Proof.
  intros Hframe. revert w. induction docs as [|d docs IH]; intros w; [done|].
  simpl. unfold bind. specialize (Hframe d w).
  destruct (migrateOne d w) as [[[p|]|e] w1]; simpl in Hframe.
  - unfold db_patch. destruct (documents w1 !! doc_id d); simpl; [|done].
    by rewrite IH.
  - simpl. by rewrite IH.
  - done.
Qed.

Lemma batch_jobs now args st w :
  (forall d w0, jobs (migrateOne d w0).2 = jobs w0) ->
  jobs (batch now args st w).2 = jobs w.
Proof.
  intros Hframe. unfold migrate_batch, bind, db_paginate.
  destruct (paginate _ _ _ _) as [r|e]; [|done].
  pose proof (loop_jobs (page r) w Hframe) as Hloop.
  destruct (loop (page r) w) as [[[]|e] w1]; simpl in Hloop; [|done].
  destruct (dry args); [|done]. by destruct (head (page r)).
Qed.

(** C10: an invocation with [dryRun = true] ends by throwing before the
    scheduling step, and the transaction rolls back to the starting world,
    so the scheduler is after the call as it was before.  The handler itself
    has made no call to [runAfter] by the time it throws, neither for a
    continuation nor for the next migration of a series: when [migrateOne]
    does not touch the scheduler, the scheduled jobs of the world in which
    the handler throws are those it started with. *)
Theorem dry_run_schedules_nothing now args w :
  Args.dryRun args = Some true ->
  exists e w',
    step now args w = (Throw e, w') /\
    run now args w = (Throw e, w) /\
    ((forall d w0, jobs (migrateOne d w0).2 = jobs w0) -> jobs w' = jobs w).
Proof.
  intros Hdry%dry_true.
  destruct (handler_dry_throws now args w Hdry) as (e & w' & He).
  exists e, w'. split; [done|]. split.
  - unfold run_migration, transaction. by rewrite He.
  - intros Hframe. revert He. unfold handler, bind.
    pose proof (load_jobs now args w) as Hload.
    destruct (load now args w) as [[st|e1] w1]; simpl in Hload.
    + rewrite (should_migrate_dry _ _ Hdry).
      pose proof (batch_jobs now args st w1 Hframe) as Hbatch.
      destruct (batch_dry_throws now args st w1 Hdry) as (e2 & w2 & Hb).
      rewrite Hb in Hbatch |- *. simpl in Hbatch. intros [= _ <-]. congruence.
    + intros [= _ <-]. done.
Qed.

(** *** One batch *)

Local Abbreviation steps := (page_steps doc_id apply_patch migrateOne).

(** The loop of the source and its relational reading agree. *)
Lemma loop_steps docs w w' :
  loop docs w = (Return tt, w') <-> steps docs w w'.
Proof.
  split.
  - revert w. induction docs as [|d docs IH]; intros w; simpl.
    + intros [= <-]. constructor.
    + unfold bind. destruct (migrateOne d w) as [[[p|]|e] w1] eqn:E; [| |done].
      * unfold db_patch. destruct (documents w1 !! doc_id d) as [old|] eqn:Eold; [|done].
        intros Hrest. eapply steps_patch; eauto.
      * intros Hrest. eapply steps_skip; eauto.
  - induction 1 as [w|d rest w w1 w2 E _ IH|d rest w w1 w2 p old E Eold _ IH]; simpl.
    + done.
    + unfold bind. by rewrite E.
    + unfold bind, db_patch. by rewrite E, Eold.
Qed.

(** For a transform that only computes a patch from the document, and a
    page of distinct stored documents: each document of the page for which
    the transform gives a patch is stored patched, each other document of
    the page, and everything outside the page, is as it was. *)
Lemma steps_pure_transform (f : Doc -> option Patch) docs w :
  (forall d w0, migrateOne d w0 = (Return (f d), w0)) ->
  NoDup (doc_id <$> docs) ->
  (forall d, d ∈ docs -> documents w !! doc_id d = Some d) ->
  exists w',
    steps docs w w' /\
    migrations w' = migrations w /\
    jobs w' = jobs w /\
    (forall d, d ∈ docs ->
       documents w' !! doc_id d
       = Some (match f d with Some p => apply_patch d p | None => d end)) /\
    (forall i, i ∉ doc_id <$> docs -> documents w' !! i = documents w !! i).
Proof.
  intros Hpure. revert w.
  induction docs as [|d rest IH]; intros w Hnodup Hstored.
  - exists w. split; [constructor|]. repeat split; try done.
    intros d Hd. by apply elem_of_nil in Hd.
  - rewrite fmap_cons in Hnodup.
    pose proof (NoDup_cons_1_1 _ _ Hnodup) as Hfresh.
    apply NoDup_cons_1_2 in Hnodup.
    assert (documents w !! doc_id d = Some d) as Hd by (apply Hstored; by left).
    destruct (f d) as [p|] eqn:Hf.
    + set (w1 := {| migrations := migrations w;
                    documents := <[doc_id d := apply_patch d p]> (documents w);
                    jobs := jobs w |}).
      destruct (IH w1 Hnodup) as (w' & Hsteps & Hmig & Hjobs & Hpage & Hframe).
      { intros d' Hd'. simpl. rewrite lookup_insert_ne.
        - apply Hstored. by right.
        - intros Heq. apply Hfresh. rewrite Heq. by apply list_elem_of_fmap_2. }
      exists w'. split.
      { eapply steps_patch; [by rewrite Hpure, Hf|exact Hd|exact Hsteps]. }
      split; [done|]. split; [done|]. split.
      * intros d' [->|Hd']%elem_of_cons; [|by apply Hpage].
        rewrite (Hframe _ Hfresh), Hf. simpl. apply lookup_insert_eq.
      * intros i Hi. rewrite fmap_cons in Hi. apply not_elem_of_cons in Hi as [Hne Hi].
        rewrite (Hframe _ Hi). simpl. by apply lookup_insert_ne.
    + destruct (IH w Hnodup) as (w' & Hsteps & Hmig & Hjobs & Hpage & Hframe).
      { intros d' Hd'. apply Hstored. by right. }
      exists w'. split.
      { eapply steps_skip; [by rewrite Hpure, Hf|exact Hsteps]. }
      split; [done|]. split; [done|]. split.
      * intros d' [->|Hd']%elem_of_cons; [|by apply Hpage].
        by rewrite (Hframe _ Hfresh), Hf.
      * intros i Hi. rewrite fmap_cons in Hi. apply not_elem_of_cons in Hi as [Hne Hi].
        by rewrite (Hframe _ Hi).
Qed.

(** C4: a batch asks [paginate] for the page of the target table at the
    effective cursor (the cursor of the arguments in a dry run that gives
    one, the cursor of the state otherwise) with [numItems] the batch size
    of the arguments, else of the migration, else of [makeMigration], else
    100.  When the documents of that page are transformed and patched in
    turn ([page_steps]: a document is written exactly when [migrateOne]
    returns a patch for it), the batch ends in the world the page steps
    lead to, with a state whose cursor is the continuation token, whose
    [isDone] is the flag of the page, whose [processed] has grown by the
    length of the page, whose [latestEnd] is the current time and whose
    [workerId] is cleared when the page was the last one, and is otherwise
    as before.  A dry run throws that state in its payload; any other run
    returns it. *)
Theorem batch_advances_state now args st w r w' :
  paginate targetTable (documents w)
    (if dry args
     then match Args.cursor args with Some c => c | None => cursor (doc st) end
     else cursor (doc st))
    (match Args.batchSize args with
     | Some b => b
     | None =>
         match functionDefaultBatchSize with
         | Some b => b
         | None => match opts_defaultBatchSize with Some b => b | None => 100 end
         end
     end)
  = Return r ->
  steps (page r) w w' ->
  exists st',
    batch now args st w
    = ((if dry args
        then Throw (ConvexError
                      (BatchPayload (head (page r))
                         (d ← head (page r); documents w' !! doc_id d) st'))
        else Return st'), w') /\
    _id st' = _id st /\
    name (doc st') = name (doc st) /\
    table (doc st') = table (doc st) /\
    latestStart (doc st') = latestStart (doc st) /\
    cursor (doc st') = Some (continueCursor r) /\
    isDone (doc st') = pageIsDone r /\
    processed (doc st') = processed (doc st) + Z.of_nat (length (page r)) /\
    (if pageIsDone r
     then latestEnd (doc st') = Present (now_ended now) /\
          workerId (doc st') = Undefined
     else latestEnd (doc st') = latestEnd (doc st) /\
          workerId (doc st') = workerId (doc st)).
Proof.
  intros Hpag Hsteps%loop_steps. exists (advance now r st). split.
  - assert (paginate targetTable (documents w) (batch_cursor st args) (numItems args)
            = Return r) as Hpag'.
    { rewrite <- Hpag. unfold batch_cursor, defaultBatchSize, nullish, DEFAULT_BATCH_SIZE.
      by destruct (Args.batchSize args), functionDefaultBatchSize,
        opts_defaultBatchSize. }
    destruct (dry args) eqn:Hdry.
    + by apply batch_dry_result.
    + unfold migrate_batch, bind, db_paginate. by rewrite Hpag', Hsteps, Hdry.
  - simpl. by destruct (pageIsDone r).
Qed.

(** *** Scheduling *)

Lemma series_skips skip rest w :
  Forall (skipped migrationTableName w) skip ->
  series (skip ++ rest) w = series rest w.
Proof.
  induction 1 as [|n skip (Htbl & i & r & Hst & Hdone) _ IH]; [done|].
  simpl. unfold bind. rewrite Htbl, (unique_stored _ _ _ _ Hst). simpl.
  by rewrite Hdone.
Qed.

Lemma series_eligible n rest w :
  eligible migrationTableName w n ->
  series (n :: rest) w
  = (Return tt, if truthy (Some n) then add_job w (series_job n rest) else w).
Proof.
  intros Hel. simpl. unfold bind.
  assert ((if truthy migrationTableName then unique n else ret None) w
          = (Return None, w) \/
          exists i r, (if truthy migrationTableName then unique n else ret None) w
                      = (Return (Some (i, r)), w) /\ isDone r = false) as Hfound.
  { destruct Hel as [Htbl|[Hno|(i & r & Hst & Hdone)]].
    - left. by rewrite Htbl.
    - destruct (truthy migrationTableName); [|by left].
      left. by apply unique_absent.
    - destruct (truthy migrationTableName); [|by left].
      right. exists i, r. split; [by apply unique_stored|done]. }
  destruct Hfound as [->|(i & r & -> & Hdone)]; simpl; [|rewrite Hdone; simpl];
    by destruct (negb (String.eqb n "")).
Qed.

Lemma series_all_skipped next w :
  Forall (skipped migrationTableName w) next -> series next w = (Return tt, w).
Proof.
  intros Hall. rewrite <- (app_nil_r next). by rewrite series_skips.
Qed.

(** C5, amended: when the state is not done, the scheduling step adds one
    pending job: the same [fnName] after a delay of zero, with the arguments
    of this invocation and [cursor] the cursor of the state; the id of that
    job becomes the [workerId] of the state.  When the state is done, the
    migrations of [next] whose record is done are passed over, and the first
    one with no persisted record or a record that is not done is scheduled,
    after a delay of zero and with the rest of the list as its [next],
    provided its name is not the empty string; for the empty string nothing
    is scheduled and the scan stops there.  When every migration of [next]
    is done nothing is scheduled.  In each case nothing but the list of jobs
    changes. *)
Theorem schedule_continuation_or_next args st w :
  (isDone (doc st) = false ->
   sched args st w
   = (Return {| _id := _id st;
                doc := {| name := name (doc st); table := table (doc st);
                          cursor := cursor (doc st); isDone := isDone (doc st);
                          workerId := Present (length (jobs w));
                          processed := processed (doc st);
                          latestStart := latestStart (doc st);
                          latestEnd := latestEnd (doc st) |} |},
      add_job w
        {| job_fn := migrationRef (Args.fnName args);
           job_delay := 0;
           job_args := [ {| Args.fnName := Args.fnName args;
                            Args.cursor := Some (cursor (doc st));
                            Args.batchSize := Args.batchSize args;
                            Args.next := Args.next args;
                            Args.dryRun := Args.dryRun args |} ];
           job_kind := pending |})) /\
  (isDone (doc st) = true ->
   (forall skip n rest,
       nullish (Args.next args) [] = skip ++ n :: rest ->
       Forall (skipped migrationTableName w) skip ->
       eligible migrationTableName w n ->
       (n <> "" -> sched args st w = (Return st, add_job w (series_job n rest))) /\
       (n = "" -> sched args st w = (Return st, w))) /\
   (Forall (skipped migrationTableName w) (nullish (Args.next args) []) ->
    sched args st w = (Return st, w))).
Proof.
  split.
  - intros Hdone. unfold schedule, bind. by rewrite Hdone.
  - intros Hdone. split.
    + intros skip n rest Hnext Hskip Hel. unfold schedule, bind.
      rewrite Hdone. simpl.
      rewrite Hnext, (series_skips _ _ _ Hskip), (series_eligible _ _ _ Hel).
      simpl. split.
      * intros Hn%String.eqb_neq. by rewrite Hn.
      * by intros ->.
    + intros Hall. unfold schedule, bind. rewrite Hdone. simpl.
      by rewrite (series_all_skipped _ _ Hall).
Qed.

(** *** Restart from an explicit cursor *)

(** C6, amended: when a state store is configured and holds a record for
    [fnName], the stored [workerId] names no job that is pending or in
    progress, the arguments give a cursor (null included) that is not the
    stored one, and [dryRun] is not set, the handler returns and commits a
    state whose cursor is the given one, whose [isDone] is false, whose
    [latestStart] is the current time and whose [processed] is 0; it
    schedules one continuation from that cursor, and touches no other
    record and no document. *)
Theorem restart_from_explicit_cursor now args w i r c :
  truthy migrationTableName = true ->
  stored_as w (Args.fnName args) i r ->
  Args.cursor args = Some c ->
  c <> cursor r ->
  Args.dryRun args <> Some true ->
  is_active (job_of w (workerId r)) = false ->
  exists st' w' stored,
    step now args w = (Return st', w') /\
    _id st' = Some i /\
    cursor (doc st') = c /\
    isDone (doc st') = false /\
    latestStart (doc st') = now_restarted now /\
    processed (doc st') = 0 /\
    workerId (doc st') = Present (length (jobs w)) /\
    migrations w' !! i = Some stored /\
    cursor stored = c /\
    isDone stored = false /\
    latestStart stored = now_restarted now /\
    processed stored = 0 /\
    workerId stored = Present (length (jobs w)) /\
    (forall k, k <> i -> migrations w' !! k = migrations w !! k) /\
    documents w' = documents w /\
    jobs w'
    = jobs w ++ [ {| job_fn := migrationRef (Args.fnName args);
                     job_delay := 0;
                     job_args := [ {| Args.fnName := Args.fnName args;
                                      Args.cursor := Some c;
                                      Args.batchSize := Args.batchSize args;
                                      Args.next := Args.next args;
                                      Args.dryRun := Args.dryRun args |} ];
                     job_kind := pending |} ].
Proof.
  intros Htbl Hst Hcur Hne Hdry Hidle.
  pose proof Hst as (Hi & _ & _).
  eexists _, _, _. split.
  - unfold handler, bind. rewrite (load_stored _ _ _ _ _ Htbl Hst).
    unfold should_migrate. simpl.
    rewrite same_cursor_false, (dry_false _ Hdry) by (rewrite Hcur; congruence).
    simpl. rewrite worker_of_job, Hidle.
    unfold finish, bind, schedule, bind, restart. rewrite Hcur. simpl.
    unfold persist, patch_migration. simpl. rewrite Hi, (dry_false _ Hdry). reflexivity.
  - simpl. repeat split; try done.
    + apply list_lookup_insert_eq. by eapply lookup_lt_Some.
    + done.
    + done.
    + done.
    + done.
    + done.
    + intros k Hk. by apply list_lookup_insert_ne.
Qed.

(** *** The records that are done *)

Lemma series_migrations next w : migrations (series next w).2 = migrations w.
Proof.
  revert w. induction next as [|n rest IH]; intros w; [done|].
  simpl. unfold bind.
  destruct ((if truthy migrationTableName then unique n else ret None) w)
    as [[found|e] w1] eqn:E.
  - assert (w1 = w) as ->.
    { destruct (truthy migrationTableName); [by eapply unique_world|].
      by injection E. }
    destruct (not_done found); [|apply IH].
    simpl. by destruct (negb (String.eqb n "")).
  - assert (w1 = w) as ->; [|done].
    destruct (truthy migrationTableName); [by eapply unique_world|done].
Qed.

Lemma load_inv now args w :
  Forall done_inv (migrations w) ->
  Forall done_inv (migrations (load now args w).2) /\
  forall st w1, load now args w = (Return st, w1) ->
    forall i, _id st = Some i -> migrations w1 !! i = Some (doc st).
Proof.
  intros Hinv. unfold load_state, bind.
  destruct (truthy migrationTableName).
  - destruct (unique _ w) as [[[[i r]|]|e] w1] eqn:E;
      pose proof (unique_world _ _ _ _ E) as ->; simpl.
    + split; [done|]. intros st w1 [= <- <-] j [= <-].
      by apply unique_found in E as [? _].
    + split.
      * apply Forall_app. split; [done|]. by apply Forall_singleton.
      * intros st w1 [= <- <-] j [= <-]. simpl.
        by rewrite lookup_app_r, Nat.sub_diag.
    + done.
  - split; [done|]. by intros st w1 [= <- <-] j.
Qed.

Lemma loop_inv docs w :
  (forall d w0, Forall done_inv (migrations w0) ->
                Forall done_inv (migrations (migrateOne d w0).2)) ->
  Forall done_inv (migrations w) ->
  Forall done_inv (migrations (loop docs w).2).
Proof.
  intros Hframe. revert w. induction docs as [|d docs IH]; intros w Hinv; [done|].
  simpl. unfold bind. specialize (Hframe d w Hinv).
  destruct (migrateOne d w) as [[[p|]|e] w1]; simpl in Hframe; [| |done].
  - unfold db_patch. destruct (documents w1 !! doc_id d); simpl; [|done].
    by apply IH.
  - simpl. by apply IH.
Qed.

Lemma settled_patched old st : settled st -> done_inv (patched old (doc st)).
Proof.
  intros Hset Hdone. simpl in Hdone. destruct (Hset Hdone) as [Hwid Hend].
  simpl. rewrite Hwid. split; [|done].
  destruct (latestEnd (doc st)); simpl in *; by try destruct Hend.
Qed.

Lemma resumed_patched r : done_inv r -> done_inv (patched r r).
Proof.
  intros Hinv Hdone. simpl in Hdone. destruct (Hinv Hdone) as [Hend Hwid].
  simpl. split.
  - destruct (latestEnd r); simpl in *; by try destruct Hend.
  - by destruct (workerId r).
Qed.

Lemma batch_inv now args st w :
  (forall d w0, Forall done_inv (migrations w0) ->
                Forall done_inv (migrations (migrateOne d w0).2)) ->
  Forall done_inv (migrations w) ->
  Forall done_inv (migrations (batch now args st w).2) /\
  forall st' w', batch now args st w = (Return st', w') ->
    settled st' /\ _id st' = _id st.
Proof.
  intros Hframe Hinv. unfold migrate_batch, bind, db_paginate.
  destruct (paginate _ _ _ _) as [r|e]; [|done].
  pose proof (loop_inv (page r) w Hframe Hinv) as Hloop.
  destruct (loop (page r) w) as [[[]|e] w1]; simpl in Hloop; [|done].
  destruct (dry args).
  - split; [|by destruct (head (page r))]. by destruct (head (page r)).
  - split; [done|]. intros st' w' [= <- <-]. split; [|done].
    intros Hdone. simpl in *. rewrite Hdone. by eauto.
Qed.

Lemma finish_inv args st w :
  Forall done_inv (migrations w) ->
  (forall i old, _id st = Some i -> migrations w !! i = Some old ->
                 isDone (doc st) = true -> done_inv (patched old (doc st))) ->
  Forall done_inv (migrations (fin args st w).2).
Proof.
  intros Hinv Hok. unfold finish, bind, schedule, bind.
  destruct (isDone (doc st)) eqn:Hdone; simpl.
  - pose proof (series_migrations (nullish (Args.next args) []) w) as Hser.
    destruct (series _ w) as [[[]|e] w1]; simpl in Hser |- *; [|by rewrite Hser].
    unfold persist, patch_migration. destruct (_id st) as [i|] eqn:Hid.
    + rewrite Hser. destruct (migrations w !! i) as [old|] eqn:Hold;
        [|simpl; by rewrite Hser].
      assert (Forall done_inv (<[i := patched old (doc st)]> (migrations w))) as Hnew.
      { apply Forall_insert; [done|]. by eapply Hok. }
      by destruct (dry args).
    + destruct (dry args); simpl; by rewrite Hser.
  - unfold persist, patch_migration. destruct (_id st) as [i|]; simpl.
    + destruct (migrations w !! i) as [old|]; [|done].
      destruct (dry args); simpl;
        (apply Forall_insert; [done|]; intros Hd; simpl in Hd; congruence).
    + by destruct (dry args).
Qed.

Lemma handler_inv now args w :
  (forall d w0, Forall done_inv (migrations w0) ->
                Forall done_inv (migrations (migrateOne d w0).2)) ->
  Forall done_inv (migrations w) ->
  Forall done_inv (migrations (step now args w).2).
Proof.
  intros Hframe Hinv. unfold handler, bind.
  destruct (load_inv now args w Hinv) as [Hload Hrow].
  destruct (load now args w) as [[st|e] w1]; simpl in Hload; [|done].
  specialize (Hrow st w1 eq_refl).
  destruct (should_migrate st args).
  - destruct (batch_inv now args st w1 Hframe Hload) as [Hbatch Hset].
    destruct (batch now args st w1) as [[st'|e] w2]; simpl in Hbatch; [|done].
    destruct (Hset st' w2 eq_refl) as [Hst' _].
    apply finish_inv; [done|]. intros i old _ _ _. by apply settled_patched.
  - rewrite worker_of_job. destruct (is_active _); [done|].
    apply finish_inv; [done|]. unfold restart.
    destruct (Args.cursor args) as [c|]; [done|].
    intros i old Hid Hold Hdone. rewrite (Hrow i Hid) in Hold. injection Hold as <-.
    apply resumed_patched. by eapply Forall_lookup_1, Hrow.
Qed.

(** C7, amended: when [migrateOne] keeps it, the mutation keeps the
    following property of the migrations table: every record whose [isDone]
    is true has a [latestEnd] and no [workerId].  The converse is not kept:
    a record restarted from an explicit cursor after it was done has
    [isDone] false and still carries the [latestEnd] of its last
    completion. *)
Theorem done_records_have_end_and_no_worker now args w :
  (forall d w0, Forall done_inv (migrations w0) ->
                Forall done_inv (migrations (migrateOne d w0).2)) ->
  Forall done_inv (migrations w) ->
  Forall done_inv (migrations (run now args w).2).
Proof.
  intros Hframe Hinv. unfold run_migration, transaction.
  pose proof (handler_inv now args w Hframe Hinv) as Hstep.
  by destruct (step now args w) as [[st|e] w'].
Qed.

(** *** Starting, resuming and finishing *)

(** The arguments of the job that continues a migration from [c]. *)
Local Abbreviation continue_from args c :=
  {| Args.fnName := Args.fnName args;
     Args.cursor := Some c;
     Args.batchSize := Args.batchSize args;
     Args.next := Args.next args;
     Args.dryRun := Args.dryRun args |}.

Local Abbreviation continuation_job args c :=
  {| job_fn := migrationRef (Args.fnName args);
     job_delay := 0;
     job_args := [continue_from args c];
     job_kind := pending |}.

Lemma insert_last {A} (l : list A) (x y : A) :
  <[length l := y]> (l ++ [x]) = l ++ [y].
Proof.
  replace (length l) with (length l + 0)%nat at 1 by lia.
  by rewrite insert_app_r.
Qed.

(** X1: the first invocation for a migration, with a state store and no
    cursor in the arguments, runs no batch: it inserts the record (cursor
    null, nothing processed, started now), schedules the continuation from
    the null cursor and records that job as the worker.  No document is read
    or written and [migrateOne] is not called. *)
Theorem first_invocation_only_schedules now args w :
  truthy migrationTableName = true ->
  absent_from w (Args.fnName args) ->
  Args.cursor args = None ->
  Args.dryRun args <> Some true ->
  step now args w
  = (Return {| _id := Some (length (migrations w));
               doc := {| name := Args.fnName args; table := targetTable;
                         cursor := None; isDone := false;
                         workerId := Present (length (jobs w));
                         processed := 0; latestStart := now_created now;
                         latestEnd := Absent |} |},
     {| migrations :=
          migrations w ++
          [ {| name := Args.fnName args; table := targetTable;
               cursor := None; isDone := false;
               workerId := Present (length (jobs w));
               processed := 0; latestStart := now_created now;
               latestEnd := Absent |} ];
        documents := documents w;
        jobs := jobs w ++ [continuation_job args None] |}).
Proof.
  intros Htbl Hno Hcur Hdry. unfold handler, bind, load_state, bind.
  rewrite Htbl, (unique_absent _ _ Hno). simpl.
  unfold should_migrate, same_cursor. simpl. rewrite Hcur, (dry_false _ Hdry). simpl.
  unfold finish, bind, schedule, bind, restart. rewrite Hcur. simpl.
  unfold persist, patch_migration. simpl.
  rewrite lookup_app_r, Nat.sub_diag by lia. simpl.
  by rewrite (dry_false _ Hdry), insert_last.
Qed.

(** X3: an invocation without a cursor for a stored migration that is not
    done and has no active worker resumes it: one continuation is scheduled
    from the stored cursor and becomes the worker of the record; the cursor,
    the count of processed documents and the start time stay as stored, and
    no document is read or written. *)
Theorem resume_continues_from_stored_cursor now args w i r :
  truthy migrationTableName = true ->
  stored_as w (Args.fnName args) i r ->
  isDone r = false ->
  Args.cursor args = None ->
  Args.dryRun args <> Some true ->
  is_active (job_of w (workerId r)) = false ->
  exists st' w' stored,
    step now args w = (Return st', w') /\
    _id st' = Some i /\
    workerId (doc st') = Present (length (jobs w)) /\
    cursor (doc st') = cursor r /\
    processed (doc st') = processed r /\
    latestStart (doc st') = latestStart r /\
    isDone (doc st') = false /\
    migrations w' !! i = Some stored /\
    workerId stored = Present (length (jobs w)) /\
    cursor stored = cursor r /\
    processed stored = processed r /\
    latestStart stored = latestStart r /\
    isDone stored = false /\
    (forall k, k <> i -> migrations w' !! k = migrations w !! k) /\
    documents w' = documents w /\
    jobs w' = jobs w ++ [continuation_job args (cursor r)].
Proof.
  intros Htbl Hst Hdone Hcur Hdry Hidle.
  pose proof Hst as (Hi & _ & _).
  eexists _, _, _. split.
  - unfold handler, bind. rewrite (load_stored _ _ _ _ _ Htbl Hst).
    unfold should_migrate. simpl.
    rewrite same_cursor_false, (dry_false _ Hdry) by (rewrite Hcur; congruence).
    simpl. rewrite worker_of_job, Hidle.
    unfold finish, bind, schedule, bind, restart. rewrite Hcur. simpl.
    rewrite Hdone. simpl.
    unfold persist, patch_migration. simpl. rewrite Hi, (dry_false _ Hdry). reflexivity.
  - simpl. split; [done|]. split; [done|]. split; [done|]. split; [done|].
    split; [done|]. split; [done|]. split.
    { apply list_lookup_insert_eq. by eapply lookup_lt_Some. }
    simpl. repeat split; try done.
    intros k Hk. by apply list_lookup_insert_ne.
Qed.

Lemma patched_same_values r : same_values r (patched r r).
Proof.
  unfold same_values. simpl. repeat split; try done.
  - by destruct (workerId r).
  - by destruct (latestEnd r).
Qed.

(** A stored migration that is done, invoked without a cursor, goes
    straight to the scan of [next]. *)
Lemma handler_done_scans_next now args w i r w1 :
  truthy migrationTableName = true ->
  stored_as w (Args.fnName args) i r ->
  isDone r = true ->
  Args.cursor args = None ->
  Args.dryRun args <> Some true ->
  is_active (job_of w (workerId r)) = false ->
  series (nullish (Args.next args) []) w = (Return tt, w1) ->
  step now args w
  = (Return {| _id := Some i; doc := r |},
     {| migrations := <[i := patched r r]> (migrations w);
        documents := documents w1; jobs := jobs w1 |}).
Proof.
  intros Htbl Hst Hdone Hcur Hdry Hidle Hser.
  pose proof Hst as (Hi & _ & _).
  pose proof (series_migrations (nullish (Args.next args) []) w) as Hmig.
  rewrite Hser in Hmig. simpl in Hmig.
  unfold handler, bind. rewrite (load_stored _ _ _ _ _ Htbl Hst).
  unfold should_migrate. simpl.
  rewrite same_cursor_false, (dry_false _ Hdry) by (rewrite Hcur; congruence).
  simpl. rewrite worker_of_job, Hidle.
  unfold finish, bind, schedule, bind, restart. rewrite Hcur. simpl.
  rewrite Hdone. simpl. rewrite Hser.
  unfold persist, patch_migration. simpl. by rewrite Hmig, Hi, (dry_false _ Hdry).
Qed.

(** X4: a stored migration that is done is not restarted by an invocation
    without a cursor.  When it has no follower left to start ([next] is
    missing, empty or all done) the invocation returns the stored state and
    changes nothing: the documents and the jobs are as before and every
    record reads as before. *)
Theorem done_migration_is_not_restarted now args w i r :
  truthy migrationTableName = true ->
  stored_as w (Args.fnName args) i r ->
  isDone r = true ->
  Args.cursor args = None ->
  Args.dryRun args <> Some true ->
  Forall (skipped migrationTableName w) (nullish (Args.next args) []) ->
  exists w' r',
    step now args w = (Return {| _id := Some i; doc := r |}, w') /\
    documents w' = documents w /\
    jobs w' = jobs w /\
    migrations w' !! i = Some r' /\
    same_values r r' /\
    (forall k, k <> i -> migrations w' !! k = migrations w !! k).
Proof.
  intros Htbl Hst Hdone Hcur Hdry Hnext.
  pose proof Hst as (Hi & _ & _).
  destruct (is_active (job_of w (workerId r))) eqn:Hact.
  - exists w, r. split.
    + unfold handler, bind. rewrite (load_stored _ _ _ _ _ Htbl Hst).
      unfold should_migrate. simpl.
      rewrite same_cursor_false, (dry_false _ Hdry) by (rewrite Hcur; congruence).
      simpl. by rewrite worker_of_job, Hact.
    + repeat split; done.
  - eexists _, (patched r r). split.
    + eapply handler_done_scans_next; try done. by apply series_all_skipped.
    + simpl. split; [done|]. split; [done|]. split.
      { apply list_lookup_insert_eq. by eapply lookup_lt_Some. }
      split; [apply patched_same_values|].
      intros k Hk. by apply list_lookup_insert_ne.
Qed.

(** *** The continuation *)

Lemma same_cursor_runs_batch now args w i r :
  truthy migrationTableName = true ->
  stored_as w (Args.fnName args) i r ->
  Args.cursor args = Some (cursor r) ->
  step now args w = bind (batch now args {| _id := Some i; doc := r |}) (fin args) w.
Proof.
  intros Htbl Hst Hcur. unfold handler, bind.
  rewrite (load_stored _ _ _ _ _ Htbl Hst).
  unfold should_migrate, same_cursor. simpl.
  by rewrite Hcur, bool_decide_eq_true_2.
Qed.

(** X2: the job that steps 3 and 4 schedule to continue a migration
    carries the cursor they commit.  So when that job runs, it takes the
    batch branch and works on the next page, although the record by then
    names that very job as its worker: the guard against a second instance
    does not stop the continuation. *)
Theorem continuation_runs_next_batch args st w st' w' i :
  truthy migrationTableName = true ->
  _id st = Some i ->
  name (doc st) = Args.fnName args ->
  isDone (doc st) = false ->
  (forall k r, k <> i -> migrations w !! k = Some r -> name r <> Args.fnName args) ->
  fin args st w = (Return st', w') ->
  exists r',
    jobs w' = jobs w ++ [continuation_job args (cursor (doc st))] /\
    stored_as w' (Args.fnName args) i r' /\
    cursor r' = cursor (doc st) /\
    workerId r' = Present (length (jobs w)) /\
    forall now',
      step now' (continue_from args (cursor (doc st))) w'
      = bind (batch now' (continue_from args (cursor (doc st)))
                {| _id := Some i; doc := r' |})
          (fin (continue_from args (cursor (doc st)))) w'.
Proof.
  intros Htbl Hid Hname Hdone Hothers.
  unfold finish, bind, schedule, bind. rewrite Hdone. simpl.
  unfold persist, patch_migration. simpl. rewrite Hid. simpl.
  destruct (migrations w !! i) as [old|] eqn:Hold; [|done].
  destruct (dry args); [done|]. intros [= <- <-]. simpl.
  set (r1 := patched old
               {| name := name (doc st); table := table (doc st);
                  cursor := cursor (doc st); isDone := false;
                  workerId := Present (length (jobs w));
                  processed := processed (doc st);
                  latestStart := latestStart (doc st);
                  latestEnd := latestEnd (doc st) |}).
  exists r1. split; [done|].
  assert (forall r', stored_as
            {| migrations := <[i := r']> (migrations w); documents := documents w;
               jobs := jobs w ++ [continuation_job args (cursor (doc st))] |}
            (name r') i r' \/ name r' <> Args.fnName args) as Hst.
  { intros r'. destruct (decide (name r' = Args.fnName args)) as [Hn|Hn]; [left|by right].
    split; [|split; [done|]]; simpl.
    - apply list_lookup_insert_eq. by eapply lookup_lt_Some.
    - intros k r0 Hk Hr0. destruct (decide (k = i)) as [->|Hne]; [done|].
      rewrite list_lookup_insert_ne in Hk by done.
      destruct (Hothers k r0 Hne Hk). congruence. }
  destruct (Hst r1) as [Hr|Hr]; [|done].
  simpl in Hr. rewrite Hname in Hr.
  split; [exact Hr|]. split; [done|]. split; [done|].
  intros now'. by apply same_cursor_runs_batch.
Qed.

(** *** What an invocation does to the migrations table *)

Lemma unique_none_absent w n w1 :
  unique n w = (Return None, w1) -> absent_from w n.
Proof.
  unfold unique. destruct (withIndex_name _ _ _) as [|row [|row' rows]] eqn:E;
    intros [= ]. by apply absent_from_index.
Qed.

Lemma table_step_refl fn tbl ms : table_step fn tbl ms ms.
Proof. by left. Qed.

Section TableFrame.
Hypothesis migrateOne_migrations :
  forall d w0, migrations (migrateOne d w0).2 = migrations w0.

Lemma loop_migrations docs w : migrations (loop docs w).2 = migrations w.
Proof.
  revert w. induction docs as [|d docs IH]; intros w; [done|].
  simpl. unfold bind. pose proof (migrateOne_migrations d w) as Hd.
  destruct (migrateOne d w) as [[[p|]|e] w1]; simpl in Hd.
  - unfold db_patch. destruct (documents w1 !! doc_id d); simpl; [|done].
    by rewrite IH.
  - simpl. by rewrite IH.
  - done.
Qed.

Lemma batch_migrations now args st w :
  migrations (batch now args st w).2 = migrations w /\
  forall st' w', batch now args st w = (Return st', w') -> same_key st st'.
Proof.
  unfold migrate_batch, bind, db_paginate.
  destruct (paginate _ _ _ _) as [r|e]; [|done].
  pose proof (loop_migrations (page r) w) as Hloop.
  destruct (loop (page r) w) as [[[]|e] w1]; simpl in Hloop; [|done].
  destruct (dry args).
  - by destruct (head (page r)).
  - split; [done|]. by intros st' w' [= <- <-].
Qed.

Lemma finish_migrations args st w :
  migrations (fin args st w).2 = migrations w \/
  exists i old new,
    _id st = Some i /\ migrations w !! i = Some old /\
    name new = name (doc st) /\ table new = table (doc st) /\
    migrations (fin args st w).2 = <[i := new]> (migrations w).
Proof.
  unfold finish, bind.
  assert (exists out w1, sched args st w = (out, w1) /\ migrations w1 = migrations w /\
          forall st1, out = Return st1 -> same_key st st1) as (out & w1 & -> & Hw1 & Hkey).
  { unfold schedule, bind. destruct (negb (isDone (doc st))).
    - simpl. eexists _, _. split; [done|]. split; [done|]. by intros st1 [= <-].
    - pose proof (series_migrations (nullish (Args.next args) []) w) as Hser.
      destruct (series _ w) as [[[]|e] w2]; simpl in Hser.
      + eexists _, _. split; [done|]. split; [done|]. by intros st1 [= <-].
      + eexists _, _. split; [done|]. by split. }
  destruct out as [st1|e]; [|by left].
  destruct (Hkey st1 eq_refl) as (Hid & Hname & Htable).
  unfold persist, patch_migration. rewrite Hid.
  destruct (_id st) as [i|]; [|left; by destruct (dry args)].
  rewrite Hw1. destruct (migrations w !! i) as [old|] eqn:Hold; [|by left].
  right. exists i, old, (patched old (doc st1)).
  split; [done|]. split; [done|]. split; [done|]. split; [done|].
  by destruct (dry args).
Qed.

Lemma handler_table_step now args w :
  table_step (Args.fnName args) targetTable (migrations w) (migrations (step now args w).2).
Proof.
  unfold handler, bind, load_state, bind.
  destruct (truthy migrationTableName).
  - destruct (unique (Args.fnName args) w) as [[[[i r]|]|e] w1] eqn:E;
      pose proof (unique_world _ _ _ _ E) as ->; [| |by left].
    + (* an existing record *)
      apply unique_found in E as [Hi Hn]. simpl.
      assert (forall st w1,
                 same_key {| _id := Some i; doc := r |} st ->
                 migrations w1 = migrations w ->
                 table_step (Args.fnName args) targetTable (migrations w)
                   (migrations (fin args st w1).2)) as Hfin.
      { intros st w1 (Hid & Hname & Htable) Hw1.
        destruct (finish_migrations args st w1) as [->|(k & old & new & Hk & Hold & Hnn & Hnt & ->)].
        - rewrite Hw1. by left.
        - rewrite Hw1 in *. simpl in Hid. rewrite Hid in Hk. injection Hk as <-.
          rewrite Hi in Hold. injection Hold as <-.
          right. left. exists i, r, new. simpl in *. repeat split; try done; congruence. }
      destruct (should_migrate _ args).
      * destruct (batch_migrations now args {| _id := Some i; doc := r |} w)
          as [Hb Hkey].
        destruct (batch now args _ w) as [[st'|e] w2]; simpl in Hb.
        -- apply Hfin; [by apply (Hkey st' w2)|done].
        -- simpl. rewrite Hb. by left.
      * rewrite worker_of_job. simpl. destruct (is_active _); [by left|].
        apply Hfin; [|done]. unfold restart, same_key.
        by destruct (Args.cursor args).
    + (* a new record *)
      apply unique_none_absent in E. simpl.
      assert (forall new, name new = Args.fnName args -> table new = targetTable ->
                table_step (Args.fnName args) targetTable (migrations w)
                  (migrations w ++ [new])) as Hadd.
      { intros new Hn Ht. right. right. split; [exact E|]. by exists new. }
      assert (forall st w1 ins,
                 _id st = Some (length (migrations w)) ->
                 name (doc st) = Args.fnName args ->
                 table (doc st) = targetTable ->
                 migrations w1 = migrations w ++ [ins] ->
                 name ins = Args.fnName args ->
                 table ins = targetTable ->
                 table_step (Args.fnName args) targetTable (migrations w)
                   (migrations (fin args st w1).2)) as Hfin.
      { intros st w1 ins Hid Hname Htable Hw1 Hins Hinst.
        destruct (finish_migrations args st w1)
          as [->|(k & old & new & Hk & Hold & Hnn & Hnt & ->)].
        - rewrite Hw1. by apply Hadd.
        - rewrite Hw1 in *. rewrite Hid in Hk. injection Hk as <-.
          rewrite insert_last. apply Hadd; congruence. }
      destruct (should_migrate _ args).
      * match goal with
        | |- context [batch now args ?s ?v] =>
            destruct (batch_migrations now args s v) as [Hb Hkey];
            destruct (batch now args s v) as [[st'|e] w2]
        end; simpl in Hb.
        -- destruct (Hkey st' w2 eq_refl) as (Hid & Hname & Htable).
           by eapply Hfin.
        -- simpl. rewrite Hb. by apply Hadd.
      * eapply Hfin; [| | |done|done|done]; unfold restart;
          by destruct (Args.cursor args).
  - (* no state store *)
    simpl. unfold should_migrate. simpl.
    destruct (batch_migrations now args (initial_state targetTable now args) w)
      as [Hb Hkey].
    destruct (batch now args _ w) as [[st'|e] w2]; simpl in Hb.
    + destruct (Hkey st' w2 eq_refl) as (Hid & _ & _).
      destruct (finish_migrations args st' w2) as [->|(k & old & new & Hk & _)].
      * rewrite Hb. by left.
      * rewrite Hid in Hk. discriminate.
    + simpl. rewrite Hb. by left.
Qed.

Lemma run_table_step now args w :
  table_step (Args.fnName args) targetTable (migrations w) (migrations (run now args w).2).
Proof.
  unfold run_migration, transaction.
  pose proof (handler_table_step now args w) as Hstep.
  destruct (step now args w) as [[st|e] w']; [done|by left].
Qed.

(** X5: when [migrateOne] leaves the migrations table alone, an invocation
    keeps the names of the table distinct: a record is inserted only after
    the lookup by name found none, and the record that is patched keeps its
    name. *)
Theorem handler_keeps_names_unique now args w :
  unique_names w -> unique_names (run now args w).2.
Proof.
  unfold unique_names. intros Hnodup.
  destruct (run_table_step now args w)
    as [->|[(i & old & new & Hi & Hold & Hnew & _ & ->)|(Hno & new & Hnew & _ & ->)]].
  - done.
  - rewrite list_fmap_insert, list_insert_id; [done|].
    rewrite list_lookup_fmap, Hi. simpl. congruence.
  - rewrite fmap_app. apply list.NoDup_app. split; [done|]. split.
    + intros n Hn [->|Hnil%elem_of_nil]%elem_of_cons; [|done].
      apply list_elem_of_fmap in Hn as (r & Hr & Hin).
      apply list_elem_of_lookup in Hin as [k Hk]. destruct (Hno k r Hk). congruence.
    + apply NoDup_singleton.
Qed.

(** X6: when [migrateOne] leaves the migrations table alone, an invocation
    for one migration removes no record, changes the name and the table of
    none, and leaves the record of every other migration exactly as it
    was. *)
Theorem handler_touches_only_its_record now args w k r :
  migrations w !! k = Some r ->
  (exists r', migrations (run now args w).2 !! k = Some r' /\
              name r' = name r /\ table r' = table r) /\
  (name r <> Args.fnName args -> migrations (run now args w).2 !! k = Some r).
Proof.
  intros Hk.
  destruct (run_table_step now args w)
    as [->|[(i & old & new & Hi & Hold & Hnew & Htable & ->)|(Hno & new & Hnew & _ & ->)]].
  - split; [by exists r|done].
  - destruct (decide (k = i)) as [->|Hne].
    + rewrite Hi in Hk. injection Hk as <-. split.
      * exists new. split; [|split; congruence].
        apply list_lookup_insert_eq. by eapply lookup_lt_Some.
      * congruence.
    + rewrite list_lookup_insert_ne by done. split; [by exists r|done].
  - rewrite lookup_app_l by (by eapply lookup_lt_Some). split; [by exists r|done].
Qed.

End TableFrame.

(** *** What an invocation does to the scheduler *)

Lemma no_job_added (js0 : list Job) :
  exists js, js0 = js0 ++ js /\ (length js <= 1)%nat /\
             Forall (fun j => job_kind j = pending /\ job_delay j = 0) js.
Proof.
  exists []. split; [by rewrite app_nil_r|]. split; [simpl; lia|constructor].
Qed.

Lemma one_job_added (js0 : list Job) (j : Job) :
  job_kind j = pending -> job_delay j = 0 ->
  exists js, js0 ++ [j] = js0 ++ js /\ (length js <= 1)%nat /\
             Forall (fun j => job_kind j = pending /\ job_delay j = 0) js.
Proof.
  intros Hk Hd. exists [j]. split; [done|]. split; [simpl; lia|].
  by repeat constructor.
Qed.

Lemma series_jobs next w :
  exists js, jobs (series next w).2 = jobs w ++ js /\ (length js <= 1)%nat /\
             Forall (fun j => job_kind j = pending /\ job_delay j = 0) js.
Proof.
  revert w. induction next as [|n rest IH]; intros w.
  - apply no_job_added.
  - simpl. unfold bind.
    destruct ((if truthy migrationTableName then unique n else ret None) w)
      as [[found|e] w1] eqn:E.
    + assert (w1 = w) as ->.
      { destruct (truthy migrationTableName); [by eapply unique_world|].
        by injection E. }
      destruct (not_done found); [|apply IH].
      simpl. destruct (negb (String.eqb n "")); simpl.
      * by apply one_job_added.
      * apply no_job_added.
    + assert (w1 = w) as ->.
      { destruct (truthy migrationTableName); [by eapply unique_world|done]. }
      apply no_job_added.
Qed.

Lemma persist_jobs st w : jobs (persist st w).2 = jobs w.
Proof.
  unfold persist, patch_migration.
  destruct (_id st) as [i|]; [|done]. by destruct (migrations w !! i).
Qed.

Lemma finish_jobs args st w :
  exists js, jobs (fin args st w).2 = jobs w ++ js /\ (length js <= 1)%nat /\
             Forall (fun j => job_kind j = pending /\ job_delay j = 0) js.
Proof.
  assert (forall st1 w1,
             jobs (let (o, w2) := persist st1 w1 in
                   match o with
                   | Return _ =>
                       (if dry args then throw (ConvexError (ArgsPayload args st1))
                        else ret st1) w2
                   | Throw e => (Throw e, w2)
                   end).2 = jobs w1) as Hend.
  { intros st1 w1. pose proof (persist_jobs st1 w1) as Hp.
    destruct (persist st1 w1) as [[[]|e] w2]; simpl in Hp; [|done].
    by destruct (dry args). }
  unfold finish, bind, schedule, bind. destruct (negb (isDone (doc st))); simpl.
  - rewrite Hend. simpl. by apply one_job_added.
  - pose proof (series_jobs (nullish (Args.next args) []) w) as Hser.
    destruct (series _ w) as [[[]|e] w1]; simpl in Hser |- *; [|done].
    by rewrite Hend.
Qed.

(** X7: when [migrateOne] does not touch the scheduler, an invocation leaves
    every job it found as it was and adds at most one, pending and with a
    delay of zero: it never cancels a job and never schedules two. *)
Theorem handler_schedules_at_most_one now args w :
  (forall d w0, jobs (migrateOne d w0).2 = jobs w0) ->
  exists js,
    jobs (run now args w).2 = jobs w ++ js /\ (length js <= 1)%nat /\
    Forall (fun j => job_kind j = pending /\ job_delay j = 0) js.
Proof.
  intros Hframe.
  assert (exists js, jobs (step now args w).2 = jobs w ++ js /\ (length js <= 1)%nat /\
            Forall (fun j => job_kind j = pending /\ job_delay j = 0) js) as Hstep.
  { unfold handler, bind.
    pose proof (load_jobs now args w) as Hload.
    destruct (load now args w) as [[st|e] w1]; simpl in Hload;
      [|simpl; rewrite Hload; apply no_job_added].
    destruct (should_migrate st args).
    - pose proof (batch_jobs now args st w1 Hframe) as Hbatch.
      destruct (batch now args st w1) as [[st'|e] w2]; simpl in Hbatch.
      + rewrite <- Hload, <- Hbatch. apply finish_jobs.
      + simpl. rewrite Hbatch, Hload. apply no_job_added.
    - rewrite worker_of_job. destruct (is_active _).
      + simpl. rewrite Hload. apply no_job_added.
      + rewrite <- Hload. apply finish_jobs. }
  unfold run_migration, transaction.
  destruct (step now args w) as [[st|e] w']; [done|].
  apply no_job_added.
Qed.

(** *** Without a state store *)

(** X8: when no migrations table is configured, every invocation that is
    not a dry run reads a page at the cursor of its arguments (null when
    none is given) and looks at no stored state and no worker.  The state it
    returns has no id and counts in [processed] only the documents of this
    page.  While the table is not exhausted it schedules the continuation
    from the continuation token; at the last page, with no [next], it
    schedules nothing. *)
Theorem stateless_invocation_runs_a_batch now args w r w' :
  truthy migrationTableName = false ->
  Args.dryRun args <> Some true ->
  paginate targetTable (documents w) (nullish (Args.cursor args) None) (numItems args)
  = Return r ->
  steps (page r) w w' ->
  (pageIsDone r = false ->
   step now args w
   = (Return {| _id := None;
                doc := {| name := Args.fnName args; table := targetTable;
                          cursor := Some (continueCursor r); isDone := false;
                          workerId := Present (length (jobs w'));
                          processed := Z.of_nat (length (page r));
                          latestStart := now_created now;
                          latestEnd := Absent |} |},
      add_job w' (continuation_job args (Some (continueCursor r))))) /\
  (pageIsDone r = true ->
   nullish (Args.next args) [] = [] ->
   step now args w
   = (Return {| _id := None;
                doc := {| name := Args.fnName args; table := targetTable;
                          cursor := Some (continueCursor r); isDone := true;
                          workerId := Undefined;
                          processed := Z.of_nat (length (page r));
                          latestStart := now_created now;
                          latestEnd := Present (now_ended now) |} |},
      w')).
Proof.
  intros Htbl Hdry%dry_false Hpag Hsteps%loop_steps.
  assert (batch now args (initial_state targetTable now args) w
          = (Return (advance now r (initial_state targetTable now args)), w')) as Hbatch.
  { unfold migrate_batch, bind, db_paginate, batch_cursor. rewrite Hdry. simpl.
    by rewrite Hpag, Hsteps. }
  split.
  - intros Hmore. unfold handler, bind, load_state. rewrite Htbl. simpl.
    rewrite Hbatch. unfold finish, bind, schedule, bind. simpl.
    rewrite Hmore. simpl. unfold persist. simpl. rewrite Hdry. reflexivity.
  - intros Hlast Hnext. unfold handler, bind, load_state. rewrite Htbl. simpl.
    rewrite Hbatch. unfold finish, bind, schedule, bind. simpl.
    rewrite Hlast, Hnext. simpl. unfold persist. simpl. rewrite Hdry.
    unfold advance. simpl. rewrite Hlast. reflexivity.
Qed.

(** *** What the handler throws *)

Lemma load_throws now args w e w1 :
  load now args w = (Throw e, w1) -> exists msg, e = OtherError msg.
Proof.
  unfold load_state, bind. destruct (truthy migrationTableName); [|done].
  unfold unique. destruct (withIndex_name _ _ _) as [|[i r] [|row' rows]]; simpl.
  - done.
  - done.
  - intros [= <- _]. by eexists.
Qed.

Lemma series_throws next w e w1 :
  series next w = (Throw e, w1) -> exists msg, e = OtherError msg.
Proof.
  revert w. induction next as [|n rest IH]; intros w; [done|].
  simpl. unfold bind.
  destruct (truthy migrationTableName).
  - unfold unique. destruct (withIndex_name _ _ _) as [|[i r] [|row' rows]]; simpl.
    + by destruct (negb (String.eqb n "")).
    + destruct (negb (isDone r)); [by destruct (negb (String.eqb n ""))|apply IH].
    + intros [= <- _]. by eexists.
  - simpl. by destruct (negb (String.eqb n "")).
Qed.

Lemma finish_throws args st w e w1 :
  dry args = false ->
  fin args st w = (Throw e, w1) -> exists msg, e = OtherError msg.
Proof.
  intros Hdry.
  assert (forall st1 w2 e1 w3,
             (let (o, w4) := persist st1 w2 in
              match o with
              | Return _ =>
                  (if dry args then throw (ConvexError (ArgsPayload args st1))
                   else ret st1) w4
              | Throw e0 => (Throw e0, w4)
              end) = (Throw e1, w3) -> exists msg, e1 = OtherError msg) as Hend.
  { intros st1 w2 e1 w3. unfold persist, patch_migration. rewrite Hdry.
    destruct (_id st1) as [i|]; [|done].
    destruct (migrations w2 !! i); [done|]. intros [= <- _]. by eexists. }
  unfold finish, bind, schedule, bind. destruct (negb (isDone (doc st))); simpl.
  - apply Hend.
  - destruct (series _ w) as [[[]|e0] w2] eqn:Hser; simpl.
    + apply Hend.
    + intros [= <- _]. by eapply series_throws.
Qed.

(** X13: the handler never throws the second [ConvexError] of the source,
    the one whose data is [{ args, ...state }]: a dry run has thrown after
    its batch, and without [dryRun] the final test fails.  Unless
    [migrateOne] or [paginate] throws such an error itself, no invocation
    ends with it. *)
Theorem final_dry_run_throw_is_unreachable now args w :
  (forall d w0 a s, (migrateOne d w0).1 <> Throw (ConvexError (ArgsPayload a s))) ->
  (forall t docs c n a s, paginate t docs c n <> Throw (ConvexError (ArgsPayload a s))) ->
  forall a s, (step now args w).1 <> Throw (ConvexError (ArgsPayload a s)).
Proof.
  intros Hone Hpag a s.
  assert (forall docs w0, (loop docs w0).1 <> Throw (ConvexError (ArgsPayload a s)))
    as Hloop.
  { induction docs as [|d docs IH]; intros w0; [done|].
    simpl. unfold bind. specialize (Hone d w0 a s).
    destruct (migrateOne d w0) as [[[p|]|e] w1]; simpl in *.
    - unfold db_patch. destruct (documents w1 !! doc_id d); [apply IH|simpl; discriminate].
    - apply IH.
    - intros [= ->]. by destruct Hone. }
  assert (forall e w1, (exists msg, e = OtherError msg) ->
            (Throw e : Outcome Doc MigrationState, w1).1
            <> Throw (ConvexError (ArgsPayload a s))) as Hother.
  { intros e w1 [msg ->]. simpl. discriminate. }
  assert (forall st w0, dry args = false ->
            (fin args st w0).1 <> Throw (ConvexError (ArgsPayload a s))) as Hfin.
  { intros st w0 Hdry. destruct (fin args st w0) as [[st'|e] w1] eqn:E; [done|].
    apply Hother. by eapply finish_throws. }
  unfold handler, bind.
  destruct (load now args w) as [[st|e] w1] eqn:Hload;
    [|apply Hother; by eapply load_throws].
  destruct (should_migrate st args) eqn:Hshould.
  - unfold migrate_batch, bind, db_paginate.
    specialize (Hpag targetTable (documents w1) (batch_cursor st args) (numItems args) a s).
    destruct (paginate _ _ _ _) as [r|e];
      [|simpl; intros [= ->]; by destruct Hpag].
    specialize (Hloop (page r) w1).
    destruct (loop (page r) w1) as [[[]|e] w2]; simpl in Hloop;
      [|simpl; intros [= ->]; by destruct Hloop].
    destruct (dry args) eqn:Hdry.
    + destruct (head (page r)); simpl; discriminate.
    + by apply Hfin.
  - rewrite worker_of_job. destruct (is_active _); [done|].
    apply Hfin. unfold should_migrate in Hshould.
    destruct (_id st); [|done]. by apply orb_false_elim in Hshould as [_ ?].
Qed.

(** *** Entry points followed by the job they schedule *)

(** X11: [startMigration] for a migration whose recorded worker is pending
    or in progress, with no start cursor or one that is not the stored
    cursor, and not as a dry run: the one job it schedules, once run,
    returns the stored state and changes nothing.  Starting a migration that
    is in progress is a no-op. *)
Theorem startMigration_of_running_migration_is_noop now fnRef opts w i r j job :
  truthy migrationTableName = true ->
  stored_as w (getFunctionName fnRef) i r ->
  workerId r = Present j ->
  jobs w !! j = Some job ->
  active (job_kind job) = true ->
  (o ← opts; startCursor o) <> Some (cursor r) ->
  (o ← opts; opt_dryRun o) <> Some true ->
  exists a w1,
    startMigration fnRef opts w = (Return tt, w1) /\
    w1 = add_job w {| job_fn := fnRef; job_delay := 0; job_args := [a];
                      job_kind := pending |} /\
    step now a w1 = (Return {| _id := Some i; doc := r |}, w1).
Proof.
  intros Htbl Hst Hwid Hjob Hact Hcur Hdry.
  set (a := {| Args.fnName := getFunctionName fnRef;
               Args.cursor := o ← opts; startCursor o;
               Args.batchSize := o ← opts; opt_batchSize o;
               Args.next := None;
               Args.dryRun := Some (nullish (o ← opts; opt_dryRun o) false) |}).
  set (w1 := add_job w {| job_fn := fnRef; job_delay := 0; job_args := [a];
                          job_kind := pending |}).
  exists a, w1. split; [reflexivity|]. split; [reflexivity|].
  assert (stored_as w1 (Args.fnName a) i r) as Hst1 by exact Hst.
  unfold handler, bind. rewrite (load_stored _ _ _ _ _ Htbl Hst1).
  unfold should_migrate. simpl. rewrite same_cursor_false by done.
  rewrite dry_false.
  - simpl. rewrite Hwid. simpl. unfold system_get. simpl.
    rewrite lookup_app_l by (by eapply lookup_lt_Some).
    match goal with
    | |- context [is_active ?x] =>
        replace x with (Some job) by (symmetry; exact Hjob)
    end.
    simpl. by rewrite Hact.
  - simpl. destruct opts as [o|]; simpl in *; [|done].
    destruct (opt_dryRun o) as [[|]|]; simpl; congruence.
Qed.

(** X12: [startMigrationsSerially] for a list whose first migration is
    stored as done (with no worker) and whose second has no record or one
    that is not done: the job it schedules, once run, leaves the first
    migration as it is, reads and writes no document, and schedules the
    second migration with the rest of the list as its [next].  A series
    skips what has been completed. *)
Theorem series_skips_completed_first now f1 f2 rest w i r :
  truthy migrationTableName = true ->
  stored_as w (getFunctionName f1) i r ->
  isDone r = true ->
  value_of (workerId r) = None ->
  eligible migrationTableName w (getFunctionName f2) ->
  getFunctionName f2 <> "" ->
  exists a w1 w2,
    startMigrationsSerially (f1 :: f2 :: rest) w = (Return tt, w1) /\
    w1 = add_job w {| job_fn := f1; job_delay := 0; job_args := [a];
                      job_kind := pending |} /\
    step now a w1 = (Return {| _id := Some i; doc := r |}, w2) /\
    jobs w2
    = jobs w1 ++ [series_job (getFunctionName f2) (getFunctionName <$> rest)] /\
    documents w2 = documents w /\
    (forall k, k <> i -> migrations w2 !! k = migrations w !! k).
Proof.
  intros Htbl Hst Hdone Hwid Hel Hname.
  set (a := {| Args.fnName := getFunctionName f1; Args.cursor := None;
               Args.batchSize := None;
               Args.next := Some (getFunctionName <$> (f2 :: rest));
               Args.dryRun := None |}).
  set (w1 := add_job w {| job_fn := f1; job_delay := 0; job_args := [a];
                          job_kind := pending |}).
  exists a, w1. eexists. split; [reflexivity|]. split; [reflexivity|].
  assert (stored_as w1 (Args.fnName a) i r) as Hst1 by exact Hst.
  assert (eligible migrationTableName w1 (getFunctionName f2)) as Hel1 by exact Hel.
  assert (series (nullish (Args.next a) []) w1
          = (Return tt,
             add_job w1 (series_job (getFunctionName f2) (getFunctionName <$> rest))))
    as Hser.
  { simpl nullish. rewrite (series_eligible _ _ _ Hel1).
    simpl. apply String.eqb_neq in Hname. by rewrite Hname. }
  assert (Args.dryRun a <> Some true) as Hdry by done.
  assert (is_active (job_of w1 (workerId r)) = false) as Hidle.
  { unfold job_of. by rewrite Hwid. }
  pose proof (handler_done_scans_next now a w1 i r _ Htbl Hst1 Hdone eq_refl
                Hdry Hidle Hser) as Hrun.
  split; [exact Hrun|].
  simpl. split; [done|]. split; [done|].
  intros k Hk. by apply list_lookup_insert_ne.
Qed.

(** *** A whole batch invocation *)

(** X14: an invocation that is not a dry run and whose cursor is the
    stored one reads the page at that cursor, and, when the page goes
    through, commits the progress in the record of the migration: the
    cursor becomes the continuation token, [processed] grows by the length
    of the page, the start time is kept.  While the table is not exhausted
    the continuation is scheduled from the new cursor and recorded as the
    worker; at the last page (with no follower left to start) the record
    is done, gets its end time, loses its worker, and nothing is
    scheduled. *)
Theorem batch_invocation_commits_progress now args w i r pr w' old :
  truthy migrationTableName = true ->
  stored_as w (Args.fnName args) i r ->
  Args.cursor args = Some (cursor r) ->
  Args.dryRun args <> Some true ->
  paginate targetTable (documents w) (cursor r) (numItems args) = Return pr ->
  steps (page pr) w w' ->
  migrations w' !! i = Some old ->
  (pageIsDone pr = true ->
   Forall (skipped migrationTableName w') (nullish (Args.next args) [])) ->
  exists st' w'' stored,
    step now args w = (Return st', w'') /\
    migrations w'' !! i = Some stored /\
    name stored = name r /\
    table stored = table r /\
    cursor stored = Some (continueCursor pr) /\
    processed stored = processed r + Z.of_nat (length (page pr)) /\
    isDone stored = pageIsDone pr /\
    latestStart stored = latestStart r /\
    (if pageIsDone pr
     then latestEnd stored = Present (now_ended now) /\
          workerId stored = Absent /\
          jobs w'' = jobs w'
     else workerId stored = Present (length (jobs w')) /\
          jobs w''
          = jobs w' ++ [continuation_job args (Some (continueCursor pr))]) /\
    documents w'' = documents w' /\
    (forall k, k <> i -> migrations w'' !! k = migrations w' !! k).
Proof.
  intros Htbl Hst Hcur Hdry%dry_false Hpag Hsteps%loop_steps Hold Hnext.
  assert (batch now args {| _id := Some i; doc := r |} w
          = (Return (advance now pr {| _id := Some i; doc := r |}), w')) as Hbatch.
  { unfold migrate_batch, bind, db_paginate, batch_cursor. rewrite Hdry. simpl.
    by rewrite Hpag, Hsteps. }
  rewrite (same_cursor_runs_batch _ _ _ _ _ Htbl Hst Hcur).
  unfold bind at 1. rewrite Hbatch.
  unfold finish, bind, schedule, bind, advance. simpl.
  destruct (pageIsDone pr) eqn:Hlast; simpl.
  - rewrite (series_all_skipped _ _ (Hnext eq_refl)).
    unfold persist, patch_migration. simpl. rewrite Hold, Hdry.
    eexists _, _, _. split; [reflexivity|]. simpl. split.
    { apply list_lookup_insert_eq. by eapply lookup_lt_Some. }
    simpl. repeat split; try done.
    intros k Hk. by apply list_lookup_insert_ne.
  - unfold persist, patch_migration. simpl. rewrite Hold, Hdry.
    eexists _, _, _. split; [reflexivity|]. simpl. split.
    { apply list_lookup_insert_eq. by eapply lookup_lt_Some. }
    simpl. repeat split; try done.
    intros k Hk. by apply list_lookup_insert_ne.
Qed.

End Handler.

(** ** Cancellation and status, whatever the record *)

Section CancelStatus.
Context {Doc : Type}.
Implicit Types w : World Doc.

(** X9: [cancelMigration] writes no migration record and no document, and
    adds and removes no job: whatever it returns or throws, every job is
    still there with its function, delay and arguments, in the state it had
    or, if it was pending or in progress, possibly canceled. *)
Theorem cancelMigration_only_cancels w migration :
  migrations (cancelMigration migration w).2 = migrations w /\
  documents (cancelMigration migration w).2 = documents w /\
  length (jobs (cancelMigration migration w).2) = length (jobs w) /\
  forall (k : JobId) job,
    jobs w !! k = Some job ->
    exists job',
      jobs (cancelMigration migration w).2 !! k = Some job' /\
      job_fn job' = job_fn job /\ job_delay job' = job_delay job /\
      job_args job' = job_args job /\
      (job_kind job' = job_kind job \/
       (active (job_kind job) = true /\ job_kind job' = canceled)).
Proof.
  assert (forall (k : JobId) job, jobs w !! k = Some job ->
            exists job', jobs w !! k = Some job' /\
              job_fn job' = job_fn job /\ job_delay job' = job_delay job /\
              job_args job' = job_args job /\
              (job_kind job' = job_kind job \/
               (active (job_kind job) = true /\ job_kind job' = canceled))) as Hsame.
  { intros k job Hk. exists job. repeat split; try done. by left. }
  unfold cancelMigration, bind.
  destruct (unique _ w) as [[[[i state]|]|e] w1] eqn:E;
    pose proof (unique_world _ _ _ _ E) as ->; [|done|done].
  destruct (negb (isDone state)); [done|].
  rewrite worker_of_job. unfold job_of.
  destruct (workerId state) as [| |j]; simpl; [done|done|].
  destruct (jobs w !! j) as [job0|] eqn:Hj; simpl; [|done].
  destruct (active (job_kind job0)) eqn:Hact; simpl; [|done].
  split; [done|]. split; [done|]. split; [by rewrite length_alter|].
  intros k job Hk. destruct (decide (k = j)) as [->|Hne].
  - rewrite Hj in Hk. injection Hk as <-. exists (cancel_job job0).
    rewrite list_lookup_alter_eq.
    replace (jobs w !! j) with (Some job0) by (symmetry; exact Hj).
    simpl. rewrite Hact.
    repeat split; try done. by right.
  - rewrite list_lookup_alter_ne by done. by apply Hsame.
Qed.

(** With distinct names, the index finds at most one row per name. *)
Lemma unique_names_resolved w m :
  unique_names w -> exists d, resolved w m d.
Proof.
  unfold unique_names. intros Hnodup.
  assert (forall tbl k n,
             NoDup (name <$> tbl) ->
             withIndex_name k tbl n = [] \/
             exists i r, withIndex_name k tbl n = [(i, r)]) as Hrows.
  { induction tbl as [|r0 tbl IH]; intros k n Hnd; [by left|].
    simpl. rewrite fmap_cons in Hnd.
    pose proof (NoDup_cons_1_1 _ _ Hnd) as Hfresh.
    apply NoDup_cons_1_2 in Hnd.
    destruct (String.eqb_spec (name r0) n) as [Hn|_]; [|by apply IH].
    right. exists k, r0. f_equal. apply withIndex_name_none.
    intros i r Hi Hr. apply Hfresh. rewrite Hn, <- Hr.
    apply list_elem_of_fmap_2. by eapply list_elem_of_lookup_2. }
  destruct (Hrows (migrations w) 0%nat (getFunctionName m) Hnodup) as [E|(i & r & E)].
  - exists (NotFoundDoc (getFunctionName m)). right. split; [|done].
    by apply absent_from_index.
  - exists (Stored r). left. exists i, r. split; [|done]. by apply stored_as_index.
Qed.

(** X10: when the names of the migrations table are distinct, [getStatus]
    with a list of migrations does not throw: it returns, in the order of
    the list, one status for each migration of the list, that of its stored
    record or of the "not found" placeholder, and leaves the world as it
    was. *)
Theorem getStatus_answers_every_request w ms :
  unique_names w ->
  exists docs,
    Forall2 (resolved w) ms docs /\
    getStatus (Some ms) w = (Return (expected_status w <$> docs), w) /\
    length (expected_status w <$> docs) = length ms.
Proof.
  intros Hnames.
  assert (exists docs, Forall2 (resolved w) ms docs) as [docs Hdocs].
  { induction ms as [|m ms [docs IH]]; [by exists []|].
    destruct (unique_names_resolved w m Hnames) as [d Hd].
    exists (d :: docs). by constructor. }
  exists docs. split; [done|]. split.
  - unfold getStatus, bind.
    by rewrite (lookup_all_resolved _ _ _ Hdocs), status_all_expected.
  - rewrite length_fmap. symmetry. by eapply Forall2_length.
Qed.

End CancelStatus.

(** * The engine on the sample host *)

Section Examples.
Import Sample.

(** A migration in progress, its next batch pending: [cancelMigration]
    returns the record and the job stays pending. *)
Lemma cancelMigration_in_progress_returns_early_witness :
  stored_as (world [running] [continuation]) fn 0%nat running /\
  isDone running = false /\
  jobs (world [running] [continuation]) !! 0%nat = Some continuation /\
  cancelMigration (migrationRef fn) (world [running] [continuation])
  = (Return (Unchanged running), world [running] [continuation]).
Proof.
  assert (stored_as (world [running] [continuation]) fn 0%nat running) as Hst.
  { apply stored_as_index. reflexivity. }
  split; [exact Hst|]. split; [reflexivity|]. split; [reflexivity|].
  exact (cancelMigration_in_progress_returns_early
           (world [running] [continuation]) (migrationRef fn) 0%nat running
           Hst eq_refl).
Defined.

(** The same call on a record that is done does reach the scheduler. *)
Example cancelMigration_done_record_cancels :
  cancelMigration (migrationRef fn) (world [stale] [continuation])
  = (Return (WithWorkerStatus stale (StatusKind canceled)),
     world [stale] [cancel_job continuation]).
Proof. reflexivity. Qed.

Lemma startMigrationsSerially_schedules_first_witness :
  exists fnRef rest w',
    [migrationRef "migrations:first"; migrationRef fn] = fnRef :: rest /\
    startMigrationsSerially [migrationRef "migrations:first"; migrationRef fn]
      (world [first] [])
    = (Return tt, w') /\
    jobs w'
    = [] ++ [ {| job_fn := fnRef;
                 job_delay := 0;
                 job_args := [ {| Args.fnName := getFunctionName fnRef;
                                  Args.cursor := None;
                                  Args.batchSize := None;
                                  Args.next := Some (getFunctionName <$> rest);
                                  Args.dryRun := None |} ];
                 job_kind := pending |} ] /\
    migrations w' = [first] /\
    documents w' = users /\
    forall v : World Doc,
      jobs v = [] ->
      jobs (startMigrationsSerially
              [migrationRef "migrations:first"; migrationRef fn] v).2 = jobs w'.
Proof.
  apply (startMigrationsSerially_schedules_first (world [first] [])
           [migrationRef "migrations:first"; migrationRef fn]).
  discriminate.
Defined.

Lemma race_with_active_worker_is_noop_witness :
  double_handler clock args (world [running] [continuation])
  = (Return {| _id := Some 0%nat; doc := running |}, world [running] [continuation]).
Proof.
  apply (race_with_active_worker_is_noop doc_id apply_patch paginate
           (Some "migrations") None "users" migrateOne (Some 2)
           clock args (world [running] [continuation]) 0%nat running 0%nat
           continuation).
  - reflexivity.
  - apply stored_as_index. reflexivity.
  - discriminate.
  - discriminate.
  - reflexivity.
  - reflexivity.
  - reflexivity.
Defined.

Lemma dry_run_commits_nothing_witness :
  (exists e, double clock dry_args (world [] []) = (Throw e, world [] [])) /\
  double clock dry_args (world [] [])
  = (Throw (ConvexError
              (BatchPayload (Some (0%nat, 1)) (Some (0%nat, 2))
                 {| _id := Some 0%nat;
                    doc := {| name := fn; table := "users"; cursor := Some "xx";
                              isDone := false; workerId := Absent; processed := 2;
                              latestStart := 1000; latestEnd := Absent |} |})),
     world [] []).
Proof.
  destruct (dry_run_commits_nothing doc_id apply_patch paginate
              (Some "migrations") None "users" migrateOne (Some 2)
              clock dry_args (world [] []) eq_refl) as [Hthrows Hpayload].
  split; [exact Hthrows|].
  apply (Hpayload
           {| _id := Some 0%nat; doc := created |}
           (world [created] [])
           first_page
           {| migrations := [created]; documents := users_started; jobs := [] |}).
  - vm_compute. reflexivity.
  - vm_compute. reflexivity.
  - vm_compute. reflexivity.
Defined.

Lemma batch_advances_state_witness :
  exists st',
    migrate_batch doc_id apply_patch paginate None "users" migrateOne (Some 2)
      clock resume_args {| _id := Some 0%nat; doc := idle |} (world [idle] [])
    = (Return st',
       {| migrations := [idle]; documents := users_done; jobs := [] |}) /\
    _id st' = Some 0%nat /\
    name (doc st') = fn /\
    table (doc st') = "users" /\
    latestStart (doc st') = 1000 /\
    cursor (doc st') = Some "xxxx" /\
    isDone (doc st') = true /\
    processed (doc st') = 2 + 1 /\
    latestEnd (doc st') = Present 2000 /\
    workerId (doc st') = Undefined.
Proof.
  apply (batch_advances_state doc_id apply_patch paginate None "users"
           migrateOne (Some 2) clock resume_args
           {| _id := Some 0%nat; doc := idle |} (world [idle] []) last_page
           {| migrations := [idle]; documents := users_done; jobs := [] |}).
  - vm_compute. reflexivity.
  - apply loop_steps. vm_compute. reflexivity.
Defined.

Lemma schedule_continuation_or_next_witness :
  schedule (Some "migrations") series_args {| _id := Some 0%nat; doc := idle |}
    (world [idle; first] [])
  = (Return {| _id := Some 0%nat;
               doc := {| name := fn; table := "users"; cursor := Some "xx";
                         isDone := false; workerId := Present 0%nat;
                         processed := 2; latestStart := 1000;
                         latestEnd := Absent |} |},
     world [idle; first]
       [ {| job_fn := migrationRef fn; job_delay := 0;
            job_args := [ {| Args.fnName := fn; Args.cursor := Some (Some "xx");
                             Args.batchSize := None;
                             Args.next := Some ["migrations:first"; "migrations:second";
                                                "migrations:third"];
                             Args.dryRun := None |} ];
            job_kind := pending |} ]) /\
  schedule (Some "migrations") series_args {| _id := Some 0%nat; doc := finished |}
    (world [finished; first] [])
  = (Return {| _id := Some 0%nat; doc := finished |},
     world [finished; first] [series_job "migrations:second" ["migrations:third"]]).
Proof.
  split.
  - apply (proj1 (schedule_continuation_or_next (Some "migrations") series_args
                    {| _id := Some 0%nat; doc := idle |} (world [idle; first] []))).
    reflexivity.
  - apply (proj1 (proj2 (schedule_continuation_or_next (Some "migrations") series_args
                           {| _id := Some 0%nat; doc := finished |}
                           (world [finished; first] [])) eq_refl)
            ["migrations:first"] "migrations:second" ["migrations:third"]).
    + reflexivity.
    + apply Forall_singleton. split; [reflexivity|].
      exists 1%nat, first. split; [|reflexivity].
      apply stored_as_index. reflexivity.
    + right. left. apply absent_from_index. reflexivity.
    + discriminate.
Defined.

(** A series whose only follower is the empty name: no record is named
    [""], so it is the first eligible entry of [next], and yet no job is
    scheduled for it. *)
Lemma schedule_first_eligible_unnamed :
  ~ first_eligible_scheduled (Some "migrations") unnamed_args
      {| _id := Some 0%nat; doc := finished |} (world [finished] []).
Proof.
  intros Hclaim.
  specialize (Hclaim [] "" [] eq_refl (Forall_nil_2 _)).
  assert (eligible (Some "migrations") (world [finished] []) "") as Hel.
  { right. left. apply absent_from_index. reflexivity. }
  specialize (Hclaim Hel). vm_compute in Hclaim. discriminate.
Qed.

Lemma restart_from_explicit_cursor_witness :
  exists st' w' stored,
    double_handler clock restart_args (world [idle] []) = (Return st', w') /\
    _id st' = Some 0%nat /\
    cursor (doc st') = None /\
    isDone (doc st') = false /\
    latestStart (doc st') = 3000 /\
    processed (doc st') = 0 /\
    workerId (doc st') = Present 0%nat /\
    migrations w' !! 0%nat = Some stored /\
    cursor stored = None /\
    isDone stored = false /\
    latestStart stored = 3000 /\
    processed stored = 0 /\
    workerId stored = Present 0%nat /\
    (forall k, k <> 0%nat -> migrations w' !! k = [idle] !! k) /\
    documents w' = users /\
    jobs w'
    = [ {| job_fn := migrationRef fn; job_delay := 0;
           job_args := [ {| Args.fnName := fn; Args.cursor := Some None;
                            Args.batchSize := None; Args.next := None;
                            Args.dryRun := None |} ];
           job_kind := pending |} ].
Proof.
  apply (restart_from_explicit_cursor doc_id apply_patch paginate
           (Some "migrations") None "users" migrateOne (Some 2)
           clock restart_args (world [idle] []) 0%nat idle None).
  - reflexivity.
  - apply stored_as_index. reflexivity.
  - reflexivity.
  - discriminate.
  - discriminate.
  - reflexivity.
Defined.

(** A dry run that gives the cursor [null] to a record stored at cursor
    ["xx"] with no worker: the invocation throws, so no restarted state is
    returned or committed. *)
Lemma restart_in_dry_run_throws :
  ~ restart_whatever_dryRun doc_id apply_patch paginate (Some "migrations") None
      "users" migrateOne (Some 2) clock dry_restart_args (world [idle] []).
Proof.
  intros Hclaim.
  assert (stored_as (world [idle] []) fn 0%nat idle) as Hst.
  { apply stored_as_index. reflexivity. }
  assert (None <> cursor idle) as Hne by discriminate.
  destruct (Hclaim 0%nat idle None Hst eq_refl Hne eq_refl)
    as (st' & w' & stored & Hrun & _).
  vm_compute in Hrun. discriminate.
Qed.

(** What the dry run of that restart throws: the state of the batch read
    from the given cursor, with the stored [latestStart] and a [processed]
    that continues the stored count; the record keeps its cursor. *)
Example restart_in_dry_run_payload :
  double clock dry_restart_args (world [idle] [])
  = (Throw (ConvexError
              (BatchPayload (Some (0%nat, 1)) (Some (0%nat, 2))
                 {| _id := Some 0%nat;
                    doc := {| name := fn; table := "users"; cursor := Some "xx";
                              isDone := false; workerId := Absent; processed := 4;
                              latestStart := 1000; latestEnd := Absent |} |})),
     world [idle] []).
Proof. vm_compute. reflexivity. Qed.

Lemma sample_migrateOne_world (d : Doc) (w : World Doc) : (migrateOne d w).2 = w.
Proof. unfold migrateOne. by destruct (Z.odd d.2). Qed.

Lemma done_records_have_end_and_no_worker_witness :
  Forall done_inv (migrations (double clock resume_args (world [idle; first] [])).2).
Proof.
  apply (done_records_have_end_and_no_worker doc_id apply_patch paginate
           (Some "migrations") None "users" migrateOne (Some 2)
           clock resume_args (world [idle; first] [])).
  - intros d w0 Hinv. rewrite sample_migrateOne_world. exact Hinv.
  - apply Forall_cons_2; [intros Hdone; discriminate Hdone|].
    apply Forall_cons_2; [|apply Forall_nil_2].
    intros _. split; [eexists|]; reflexivity.
Defined.

(** A done record restarted from [cursor: null]: before, every record has
    an end time exactly when it is done; after, the record is not done and
    still has its end time. *)
Lemma restart_of_done_record_keeps_latestEnd :
  ~ keeps_end_iff_done doc_id apply_patch paginate (Some "migrations") None
      "users" migrateOne (Some 2) clock restart_args (world [finished] []).
Proof.
  intros Hclaim.
  assert (Forall end_iff_done (migrations (world [finished] []))) as Hbefore.
  { apply Forall_cons_2; [|apply Forall_nil_2].
    split; [reflexivity|]. intros _. by eexists. }
  specialize (Hclaim Hbefore).
  apply (Forall_lookup_1 _ _ 0%nat
           {| name := fn; table := "users"; cursor := None; isDone := false;
              workerId := Present 0%nat; processed := 0; latestStart := 3000;
              latestEnd := Present 1500 |}) in Hclaim.
  - destruct Hclaim as [Hdone _]. specialize (Hdone (ex_intro _ 1500 eq_refl)).
    discriminate.
  - vm_compute. reflexivity.
Qed.

Lemma getStatus_read_only_projection_witness :
  getStatus (Some [migrationRef fn; migrationRef "migrations:unknown"])
    (world [running] [continuation])
  = (Return [ Enriched (Stored running) (Some pending) (Some 2)
                (Some ["migrations:next"]);
              Enriched (NotFoundDoc "migrations:unknown") None None None ],
     world [running] [continuation]).
Proof.
  apply (proj2 (proj2 (getStatus_read_only_projection (world [running] [continuation])))
           [migrationRef fn; migrationRef "migrations:unknown"]
           [Stored running; NotFoundDoc "migrations:unknown"]).
  constructor; [|constructor; [|constructor]].
  - left. exists 0%nat, running. split; [|reflexivity].
    apply stored_as_index. reflexivity.
  - right. split; [|reflexivity]. apply absent_from_index. reflexivity.
Defined.

(** A done record whose [workerId] names a pending job: [getStatus] returns
    it without the state, batch size and [next] of that job. *)
Lemma getStatus_done_record_not_enriched :
  ~ status_always_enriched (world [stale] [continuation]) [migrationRef fn].
Proof.
  intros Hclaim. specialize (Hclaim [Stored stale]).
  assert (Forall2 (resolved (world [stale] [continuation]))
            [migrationRef fn] [Stored stale]) as Hres.
  { constructor; [|constructor].
    left. exists 0%nat, stale. split; [|reflexivity].
    apply stored_as_index. reflexivity. }
  specialize (Hclaim Hres). vm_compute in Hclaim. discriminate.
Qed.

(** What [getStatus] returns there, and for a done record with no worker:
    the record alone. *)
Example getStatus_done_records :
  getStatus (Some [migrationRef fn]) (world [stale] [continuation])
  = (Return [Plain (Stored stale)], world [stale] [continuation]) /\
  getStatus (Some [migrationRef fn]) (world [finished] [])
  = (Return [Plain (Stored finished)], world [finished] []).
Proof. split; reflexivity. Qed.

Lemma dry_run_schedules_nothing_witness :
  exists e w',
    double_handler clock dry_args (world [running] [continuation]) = (Throw e, w') /\
    double clock dry_args (world [running] [continuation])
    = (Throw e, world [running] [continuation]) /\
    jobs w' = [continuation].
Proof.
  destruct (dry_run_schedules_nothing doc_id apply_patch paginate
              (Some "migrations") None "users" migrateOne (Some 2)
              clock dry_args (world [running] [continuation]) eq_refl)
    as (e & w' & Hstep & Hrun & Hjobs).
  exists e, w'. split; [exact Hstep|]. split; [exact Hrun|].
  apply Hjobs. intros d w0. rewrite sample_migrateOne_world. reflexivity.
Defined.

(** ** Further examples *)

Lemma first_invocation_only_schedules_witness :
  double_handler clock args (world [first] [])
  = (Return {| _id := Some 1%nat;
               doc := {| name := fn; table := "users"; cursor := None;
                         isDone := false; workerId := Present 0%nat;
                         processed := 0; latestStart := 1000;
                         latestEnd := Absent |} |},
     world [first;
            {| name := fn; table := "users"; cursor := None; isDone := false;
               workerId := Present 0%nat; processed := 0; latestStart := 1000;
               latestEnd := Absent |}]
       [ {| job_fn := migrationRef fn; job_delay := 0;
            job_args := [ {| Args.fnName := fn; Args.cursor := Some None;
                             Args.batchSize := None; Args.next := None;
                             Args.dryRun := None |} ];
            job_kind := pending |} ]).
Proof.
  apply (first_invocation_only_schedules doc_id apply_patch paginate
           (Some "migrations") None "users" migrateOne (Some 2)
           clock args (world [first] [])).
  - reflexivity.
  - apply absent_from_index. reflexivity.
  - reflexivity.
  - discriminate.
Defined.

Lemma continuation_runs_next_batch_witness :
  exists r',
    jobs (world [running; first] [next_batch]) = [] ++ [next_batch] /\
    stored_as (world [running; first] [next_batch]) fn 0%nat r' /\
    cursor r' = Some "xx" /\
    workerId r' = Present 0%nat /\
    forall now',
      double_handler now' resume_args (world [running; first] [next_batch])
      = bind (double_batch now' resume_args {| _id := Some 0%nat; doc := r' |})
          (double_finish resume_args) (world [running; first] [next_batch]).
Proof.
  apply (continuation_runs_next_batch doc_id apply_patch paginate
           (Some "migrations") None "users" migrateOne (Some 2)
           args {| _id := Some 0%nat; doc := idle |} (world [idle; first] [])
           {| _id := Some 0%nat; doc := running |}
           (world [running; first] [next_batch]) 0%nat).
  - reflexivity.
  - reflexivity.
  - reflexivity.
  - reflexivity.
  - intros [|[|k]] r Hne Hk Hr; [done| |discriminate Hk].
    vm_compute in Hk. injection Hk as <-. vm_compute in Hr. discriminate Hr.
  - reflexivity.
Defined.

Lemma resume_continues_from_stored_cursor_witness :
  exists st' w' stored,
    double_handler clock args (world [idle] []) = (Return st', w') /\
    _id st' = Some 0%nat /\
    workerId (doc st') = Present 0%nat /\
    cursor (doc st') = Some "xx" /\
    processed (doc st') = 2 /\
    latestStart (doc st') = 1000 /\
    isDone (doc st') = false /\
    migrations w' !! 0%nat = Some stored /\
    workerId stored = Present 0%nat /\
    cursor stored = Some "xx" /\
    processed stored = 2 /\
    latestStart stored = 1000 /\
    isDone stored = false /\
    (forall k, k <> 0%nat -> migrations w' !! k = [idle] !! k) /\
    documents w' = users /\
    jobs w'
    = [] ++ [ {| job_fn := migrationRef fn; job_delay := 0;
                 job_args := [ {| Args.fnName := fn; Args.cursor := Some (Some "xx");
                                  Args.batchSize := None; Args.next := None;
                                  Args.dryRun := None |} ];
                 job_kind := pending |} ].
Proof.
  apply (resume_continues_from_stored_cursor doc_id apply_patch paginate
           (Some "migrations") None "users" migrateOne (Some 2)
           clock args (world [idle] []) 0%nat idle).
  - reflexivity.
  - apply stored_as_index. reflexivity.
  - reflexivity.
  - reflexivity.
  - discriminate.
  - reflexivity.
Defined.

Lemma done_migration_is_not_restarted_witness :
  exists w' r',
    double_handler clock args (world [finished] [])
    = (Return {| _id := Some 0%nat; doc := finished |}, w') /\
    documents w' = users /\
    jobs w' = [] /\
    migrations w' !! 0%nat = Some r' /\
    same_values finished r' /\
    (forall k, k <> 0%nat -> migrations w' !! k = [finished] !! k).
Proof.
  apply (done_migration_is_not_restarted doc_id apply_patch paginate
           (Some "migrations") None "users" migrateOne (Some 2)
           clock args (world [finished] []) 0%nat finished).
  - reflexivity.
  - apply stored_as_index. reflexivity.
  - reflexivity.
  - reflexivity.
  - discriminate.
  - constructor.
Defined.

Lemma sample_unique_names : unique_names (world [idle; first] []).
Proof.
  unfold unique_names. simpl.
  apply list.NoDup_cons. split; [|apply NoDup_singleton].
  intros Hin%list_elem_of_singleton. discriminate Hin.
Qed.

Lemma handler_keeps_names_unique_witness :
  unique_names (double clock resume_args (world [idle; first] [])).2.
Proof.
  apply (handler_keeps_names_unique doc_id apply_patch paginate
           (Some "migrations") None "users" migrateOne (Some 2)).
  - intros d w0. rewrite sample_migrateOne_world. reflexivity.
  - exact sample_unique_names.
Defined.

Lemma handler_touches_only_its_record_witness :
  (exists r', migrations (double clock resume_args (world [idle; first] [])).2 !! 1%nat
              = Some r' /\ name r' = name first /\ table r' = table first) /\
  (name first <> Args.fnName resume_args ->
   migrations (double clock resume_args (world [idle; first] [])).2 !! 1%nat
   = Some first).
Proof.
  apply (handler_touches_only_its_record doc_id apply_patch paginate
           (Some "migrations") None "users" migrateOne (Some 2)).
  - intros d w0. rewrite sample_migrateOne_world. reflexivity.
  - reflexivity.
Defined.

Lemma handler_schedules_at_most_one_witness :
  exists js,
    jobs (double clock resume_args (world [idle; first] [continuation])).2
    = [continuation] ++ js /\ (length js <= 1)%nat /\
    Forall (fun j => job_kind j = pending /\ job_delay j = 0) js.
Proof.
  apply (handler_schedules_at_most_one doc_id apply_patch paginate
           (Some "migrations") None "users" migrateOne (Some 2)
           clock resume_args (world [idle; first] [continuation])).
  intros d w0. rewrite sample_migrateOne_world. reflexivity.
Defined.

Lemma stateless_invocation_runs_a_batch_witness :
  stateless_handler clock args (world [] [])
  = (Return {| _id := None;
               doc := {| name := fn; table := "users"; cursor := Some "xx";
                         isDone := false; workerId := Present 0%nat;
                         processed := 2; latestStart := 1000;
                         latestEnd := Absent |} |},
     add_job {| migrations := []; documents := users_started; jobs := [] |}
       next_batch).
Proof.
  apply (proj1 (stateless_invocation_runs_a_batch doc_id apply_patch paginate
                  None None "users" migrateOne (Some 2)
                  clock args (world [] []) first_page
                  {| migrations := []; documents := users_started; jobs := [] |}
                  eq_refl ltac:(discriminate) eq_refl
                  ltac:(apply loop_steps; vm_compute; reflexivity))).
  reflexivity.
Defined.

Lemma final_dry_run_throw_is_unreachable_witness :
  (double_handler clock dry_args (world [idle] [])).1
  <> Throw (ConvexError (ArgsPayload dry_args {| _id := Some 0%nat; doc := idle |})).
Proof.
  assert (forall d w0 a s,
             (migrateOne d w0).1 <> Throw (ConvexError (ArgsPayload a s))) as Hone.
  { intros d w0 a s. unfold migrateOne. destruct (Z.odd d.2); discriminate. }
  assert (forall t docs c n a s,
             paginate t docs c n <> Throw (ConvexError (ArgsPayload a s))) as Hpag.
  { intros t docs c n a s. unfold paginate.
    destruct (bool_decide (n <= 0)); discriminate. }
  exact (final_dry_run_throw_is_unreachable doc_id apply_patch paginate
           (Some "migrations") None "users" migrateOne (Some 2)
           clock dry_args (world [idle] []) Hone Hpag
           dry_args {| _id := Some 0%nat; doc := idle |}).
Defined.

Lemma startMigration_of_running_migration_is_noop_witness :
  exists a w1,
    startMigration (migrationRef fn) None (world [running] [continuation])
    = (Return tt, w1) /\
    w1 = add_job (world [running] [continuation])
           {| job_fn := migrationRef fn; job_delay := 0; job_args := [a];
              job_kind := pending |} /\
    double_handler clock a w1 = (Return {| _id := Some 0%nat; doc := running |}, w1).
Proof.
  apply (startMigration_of_running_migration_is_noop doc_id apply_patch paginate
           (Some "migrations") None "users" migrateOne (Some 2)
           clock (migrationRef fn) None (world [running] [continuation])
           0%nat running 0%nat continuation).
  - reflexivity.
  - apply stored_as_index. reflexivity.
  - reflexivity.
  - reflexivity.
  - reflexivity.
  - discriminate.
  - discriminate.
Defined.

Lemma series_skips_completed_first_witness :
  exists a w1 w2,
    startMigrationsSerially
      [migrationRef "migrations:first"; migrationRef fn; migrationRef "migrations:third"]
      (world [first] [])
    = (Return tt, w1) /\
    w1 = add_job (world [first] [])
           {| job_fn := migrationRef "migrations:first"; job_delay := 0;
              job_args := [a]; job_kind := pending |} /\
    double_handler clock a w1 = (Return {| _id := Some 0%nat; doc := first |}, w2) /\
    jobs w2
    = jobs w1 ++ [series_job (getFunctionName (migrationRef fn))
                    (getFunctionName <$> [migrationRef "migrations:third"])] /\
    documents w2 = users /\
    (forall k, k <> 0%nat -> migrations w2 !! k = [first] !! k).
Proof.
  apply (series_skips_completed_first doc_id apply_patch paginate
           (Some "migrations") None "users" migrateOne (Some 2)
           clock (migrationRef "migrations:first") (migrationRef fn)
           [migrationRef "migrations:third"] (world [first] []) 0%nat first).
  - reflexivity.
  - apply stored_as_index. reflexivity.
  - reflexivity.
  - reflexivity.
  - right. left. apply absent_from_index. reflexivity.
  - discriminate.
Defined.

Lemma cancelMigration_only_cancels_witness :
  exists job',
    jobs (cancelMigration (migrationRef fn) (world [stale] [continuation])).2 !! 0%nat
    = Some job' /\
    job_fn job' = job_fn continuation /\ job_delay job' = job_delay continuation /\
    job_args job' = job_args continuation /\
    (job_kind job' = job_kind continuation \/
     (active (job_kind continuation) = true /\ job_kind job' = canceled)).
Proof.
  apply (proj2 (proj2 (proj2 (cancelMigration_only_cancels
                                (world [stale] [continuation]) (migrationRef fn))))
           0%nat continuation).
  reflexivity.
Defined.

Lemma getStatus_answers_every_request_witness :
  exists docs,
    Forall2 (resolved (world [idle; first] [continuation]))
      [migrationRef "migrations:unknown"; migrationRef fn] docs /\
    getStatus (Some [migrationRef "migrations:unknown"; migrationRef fn])
      (world [idle; first] [continuation])
    = (Return (expected_status (world [idle; first] [continuation]) <$> docs),
       world [idle; first] [continuation]) /\
    length (expected_status (world [idle; first] [continuation]) <$> docs)
    = length [migrationRef "migrations:unknown"; migrationRef fn].
Proof.
  apply (getStatus_answers_every_request (world [idle; first] [continuation])
           [migrationRef "migrations:unknown"; migrationRef fn]).
  unfold unique_names. simpl.
  apply list.NoDup_cons. split; [|apply NoDup_singleton].
  intros Hin%list_elem_of_singleton. discriminate Hin.
Defined.

Lemma batch_invocation_commits_progress_witness :
  exists st' w'' stored,
    double_handler clock resume_args (world [idle] []) = (Return st', w'') /\
    migrations w'' !! 0%nat = Some stored /\
    name stored = fn /\
    table stored = "users" /\
    cursor stored = Some "xxxx" /\
    processed stored = 2 + 1 /\
    isDone stored = true /\
    latestStart stored = 1000 /\
    (latestEnd stored = Present 2000 /\ workerId stored = Absent /\ jobs w'' = []) /\
    documents w'' = users_done /\
    (forall k, k <> 0%nat -> migrations w'' !! k = [idle] !! k).
Proof.
  apply (batch_invocation_commits_progress doc_id apply_patch paginate
           (Some "migrations") None "users" migrateOne (Some 2)
           clock resume_args (world [idle] []) 0%nat idle last_page
           {| migrations := [idle]; documents := users_done; jobs := [] |} idle).
  - reflexivity.
  - apply stored_as_index. reflexivity.
  - reflexivity.
  - discriminate.
  - vm_compute. reflexivity.
  - apply loop_steps. vm_compute. reflexivity.
  - reflexivity.
  - intros _. constructor.
Defined.

End Examples.
